(** * Carpool marketplace (src/App.js): shallow embedding and properties

    The React component [CarpoolApp] keeps a local replica of three
    Firestore collections (rides, ride requests, the caller's wallet) and
    mutates the remote store through command handlers.  This development
    embeds

    - the JavaScript string primitives the handlers rely on
      ([toLowerCase], [includes], [trim]),
    - the pure matching function [checkRouteOverlap] and the search filter
      [handleSearch],
    - the document store with the Firestore operations the handlers call
      ([getDoc], [setDoc], [addDoc], [updateDoc], a filtered [getDocs]),
    - the handlers [handleRegistration], [handlePostRide], [requestRide],
      [acceptRequest], [completeRide] and [handleWithdrawFunds],

    and states the properties of the specification over them.

    Modelling conventions.
    - Strings are sequences of 8-bit code units; case folding and the
      whitespace class are the ASCII ones.
    - Numbers are exact integers ([Z]); [NaN], which the handlers test for
      at their input boundary, is [None] of [option Z].  Every operation the
      handlers perform on amounts is either [+], [-] or a comparison, so an
      amount may be read in any fixed sub-unit (cents); rounding of binary
      floating point is outside the model.
    - Store operations run to completion one after the other in program
      order.  [updateDoc] rejects when the document is absent, the other
      operations always succeed; a rejection is what the [try]/[catch] of a
      handler observes.
    - The identifier [addDoc] generates is some identifier unused in the
      collection.
    - The replicas [rides], [rideRequests] and [wallet] change only when a
      snapshot is delivered ([onSnapshot]); a property that needs a replica
      to agree with the store says so in a hypothesis.
    - Timestamps ([new Date().toISOString()]) are an argument [now]. *)

From stdpp Require Import gmap strings list fin_maps.
From Stdlib Require Import ZArith String Ascii.

Open Scope string_scope.
Open Scope Z_scope.

(** ** JavaScript string primitives *)

Module Js.

(** [c] is one of TAB, LF, VT, FF, CR, SPACE. *)
Definition is_space (c : ascii) : bool :=
  let n := nat_of_ascii c in
  ((9 <=? n)%nat && (n <=? 13)%nat) || (n =? 32)%nat.

Fixpoint trimStart (s : string) : string :=
  match s with
  | EmptyString => EmptyString
  | String c s' => if is_space c then trimStart s' else s
  end.

Fixpoint trimEnd (s : string) : string :=
  match s with
  | EmptyString => EmptyString
  | String c s' =>
      match trimEnd s' with
      | EmptyString => if is_space c then EmptyString else String c EmptyString
      | t => String c t
      end
  end.

Definition trim (s : string) : string := trimEnd (trimStart s).

Definition lower_char (c : ascii) : ascii :=
  let n := nat_of_ascii c in
  if (65 <=? n)%nat && (n <=? 90)%nat then ascii_of_nat (n + 32) else c.

Fixpoint toLowerCase (s : string) : string :=
  match s with
  | EmptyString => EmptyString
  | String c s' => String (lower_char c) (toLowerCase s')
  end.

(** [s.includes(sub)]: [sub] occurs in [s] at some offset. *)
Fixpoint includes (s sub : string) : bool :=
  if String.prefix sub s then true
  else match s with
       | EmptyString => false
       | String _ s' => includes s' sub
       end.

(** Truthiness of a string: every string but the empty one. *)
Definition truthy (s : string) : bool := negb (String.eqb s "").

(** Truthiness of a number: every number but [NaN] and [0]. *)
Definition truthy_num (n : option Z) : bool :=
  match n with
  | None => false
  | Some z => negb (z =? 0)
  end.

End Js.

(** ** Data model *)

Record Vehicle := mkVehicle {
  v_type : string;
  v_color : string;
  v_plate : string
}.

(** The value of a [route] field: an array of strings, or anything that
    [Array.isArray] rejects (a missing field included). *)
Inductive JsRoute :=
| NotArray
| Arr (points : list string).

Inductive RideStatus := RideActive | RideCompleted.

Inductive RequestStatus :=
| ReqSearching | ReqPending | ReqAccepted | ReqRejected | ReqCompleted | ReqCancelled.

Inductive VerificationStatus := VerPending | VerVerified | VerRejected.

#[global] Instance RideStatus_eq_dec : EqDecision RideStatus.
Proof. solve_decision. Defined.
#[global] Instance RequestStatus_eq_dec : EqDecision RequestStatus.
Proof. solve_decision. Defined.

Record Ride := mkRide {
  r_driverId : string;
  r_driverName : string;
  r_from : string;
  r_to : string;
  r_startTime : string;
  r_availableSeats : Z;
  r_pricePerSeat : Z;
  r_route : JsRoute;
  r_car : Vehicle;
  r_createdAt : string;
  r_status : RideStatus
}.

Record RideRequest := mkRequest {
  rq_rideId : option string;
  rq_riderId : string;
  rq_riderName : string;
  rq_driverId : string;
  rq_driverName : string;
  rq_from : string;
  rq_to : string;
  rq_rideStartTime : string;
  rq_price : Z;
  rq_status : RequestStatus;
  rq_requestedAt : string
}.

Record Profile := mkProfile {
  p_name : string;
  p_email : string;
  p_phone : string;
  p_userType : string;
  p_vehicle : option Vehicle;
  p_verificationStatus : VerificationStatus;
  p_createdAt : string
}.

(** Partial updates written by [updateDoc]. *)
Definition set_ride_status (s : RideStatus) (r : Ride) : Ride :=
  mkRide (r_driverId r) (r_driverName r) (r_from r) (r_to r) (r_startTime r)
         (r_availableSeats r) (r_pricePerSeat r) (r_route r) (r_car r)
         (r_createdAt r) s.

Definition set_ride_seats (n : Z) (r : Ride) : Ride :=
  mkRide (r_driverId r) (r_driverName r) (r_from r) (r_to r) (r_startTime r)
         n (r_pricePerSeat r) (r_route r) (r_car r) (r_createdAt r) (r_status r).

Definition set_request_status (s : RequestStatus) (q : RideRequest) : RideRequest :=
  mkRequest (rq_rideId q) (rq_riderId q) (rq_riderName q) (rq_driverId q)
            (rq_driverName q) (rq_from q) (rq_to q) (rq_rideStartTime q)
            (rq_price q) s (rq_requestedAt q).

(** ** Route matching *)

(** [lowerRoute1.some(p1 => lowerRoute2.some(p2 => p1.includes(p2) || p2.includes(p1)))] *)
Definition overlap_points (lowerRoute1 lowerRoute2 : list string) : bool :=
  existsb (fun point1 =>
    existsb (fun point2 => Js.includes point1 point2 || Js.includes point2 point1)
            lowerRoute2)
    lowerRoute1.

Definition checkRouteOverlap (route1 route2 : JsRoute) : bool :=
  match route1, route2 with
  | Arr r1, Arr r2 =>
      match r1, r2 with
      | [], _ | _, [] => false
      | _, _ => overlap_points (map Js.toLowerCase r1) (map Js.toLowerCase r2)
      end
  | _, _ => false
  end.

(** ** Ride search *)

Record SearchQuery := mkQuery {
  sq_from : string;
  sq_to : string;
  sq_route : list string
}.

(** [p => p.trim()] used as a filter predicate. *)
Definition nonblank (p : string) : bool := Js.truthy (Js.trim p).

Definition fullSearchRoute (searchQuery : SearchQuery) : list string :=
  let searchRoutePoints := List.filter nonblank (sq_route searchQuery) in
  List.filter nonblank
    (sq_from searchQuery :: searchRoutePoints ++ [sq_to searchQuery]).

Definition fromMatch (searchQuery : SearchQuery) (ride : Ride) : bool :=
  if Js.truthy (sq_from searchQuery)
  then Js.includes (Js.toLowerCase (r_from ride)) (Js.toLowerCase (sq_from searchQuery))
  else true.

Definition toMatch (searchQuery : SearchQuery) (ride : Ride) : bool :=
  if Js.truthy (sq_to searchQuery)
  then Js.includes (Js.toLowerCase (r_to ride)) (Js.toLowerCase (sq_to searchQuery))
  else true.

Definition seatsAvailable (ride : Ride) : bool := 0 <? r_availableSeats ride.

Definition routeMatch (searchQuery : SearchQuery) (ride : Ride) : bool :=
  match fullSearchRoute searchQuery with
  | [] => true
  | route => checkRouteOverlap (r_route ride) (Arr route)
  end.

(** The local replica of the ride catalog is a list of documents, each
    carrying its identifier. *)
Definition handleSearch (rides : list (string * Ride)) (searchQuery : SearchQuery)
  : list (string * Ride) :=
  List.filter (fun '(_, ride) =>
    fromMatch searchQuery ride && toMatch searchQuery ride
    && seatsAvailable ride && routeMatch searchQuery ride) rides.

(** ** The document store *)

Record Store := mkStore {
  st_profiles : gmap string Profile;   (* users/{uid}/userProfile/data *)
  st_rides : gmap string Ride;         (* public/data/rides *)
  st_requests : gmap string RideRequest; (* public/data/rideRequests *)
  st_wallets : gmap string Z           (* users/{uid}/walletData/balance *)
}.

(** A collection of the store: how to read it and how to replace it. *)
Record Coll (V : Type) := mkColl {
  col_get : Store -> gmap string V;
  col_set : gmap string V -> Store -> Store
}.
Arguments col_get {V} _ _.
Arguments col_set {V} _ _ _.

Definition profilesC : Coll Profile :=
  mkColl Profile st_profiles
    (fun m s => mkStore m (st_rides s) (st_requests s) (st_wallets s)).
Definition ridesC : Coll Ride :=
  mkColl Ride st_rides
    (fun m s => mkStore (st_profiles s) m (st_requests s) (st_wallets s)).
Definition requestsC : Coll RideRequest :=
  mkColl RideRequest st_requests
    (fun m s => mkStore (st_profiles s) (st_rides s) m (st_wallets s)).
Definition walletsC : Coll Z :=
  mkColl Z st_wallets
    (fun m s => mkStore (st_profiles s) (st_rides s) (st_requests s) m).

(** An awaited store operation either resolves with a value or rejects;
    in both cases the effects performed so far stay in the store. *)
Inductive Result (A : Type) :=
| Resolved (a : A)
| Rejected.
Arguments Resolved {A} a.
Arguments Rejected {A}.

Definition Fire (A : Type) : Type := Store -> Store * Result A.

#[global] Instance Fire_ret : MRet Fire := fun A a s => (s, Resolved a).
#[global] Instance Fire_bind : MBind Fire := fun A B k m s =>
  match m s with
  | (s', Resolved a) => k a s'
  | (s', Rejected) => (s', Rejected)
  end.

Definition getDoc {V} (c : Coll V) (id : string) : Fire (option V) :=
  fun s => (s, Resolved (col_get c s !! id)).

Definition setDoc {V} (c : Coll V) (id : string) (v : V) : Fire unit :=
  fun s => (col_set c (<[id := v]> (col_get c s)) s, Resolved tt).

(** [addDoc] stores the document under an identifier unused so far and
    resolves with it. *)
Definition addDoc {V} (c : Coll V) (v : V) : Fire string :=
  fun s => let id := fresh (dom (col_get c s)) in
           (col_set c (<[id := v]> (col_get c s)) s, Resolved id).

(** [updateDoc] rewrites an existing document and rejects on a missing one. *)
Definition updateDoc {V} (c : Coll V) (id : string) (f : V -> V) : Fire unit :=
  fun s => match col_get c s !! id with
           | Some v => (col_set c (<[id := f v]> (col_get c s)) s, Resolved tt)
           | None => (s, Rejected)
           end.

(** [getDocs(query(collection, where ...))]: the documents that satisfy the
    conjunction of the equality filters, with their identifiers. *)
Definition getDocs {V} (c : Coll V) (where_ : V -> bool) : Fire (list (string * V)) :=
  fun s => (s, Resolved (List.filter (fun d => where_ (snd d)) (map_to_list (col_get c s)))).

(** [docs.forEach(async d => { await f(d) })]: the callbacks are started for
    every element and not awaited by the caller, so a rejection inside one
    never reaches the enclosing [try]. *)
Definition forEach_async {A} (docs : list A) (f : A -> Fire unit) : Fire unit :=
  fun s => (fold_left (fun s' d => fst (f d s')) docs s, Resolved tt).

(** ** Client state *)

Record User := mkUser {
  u_id : string;
  u_name : string;
  u_userType : string;
  u_vehicle : option Vehicle
}.

(** The texts handed to [showMessage] by the handlers modelled here. *)
Inductive Notice :=
| RegFillRequired        (* 'Please fill in all required fields.' *)
| RegVehicleDetails      (* 'Please provide all vehicle details and upload your driver's license.' *)
| RegUploadId            (* 'Please upload a valid ID.' *)
| RegSuccessful          (* 'Registration successful! Your profile is pending verification.' *)
| RegFailed              (* 'Registration failed. Please try again.' *)
| PostFillRequired       (* 'Please fill in all required ride details.' *)
| PostOnlyDrivers        (* 'Only drivers can post rides.' *)
| PostSuccessful         (* 'Ride posted successfully!' *)
| PostFailed             (* 'Failed to post ride. Please try again.' *)
| ReqOnlyRiders          (* 'Only riders can request rides.' *)
| ReqRideNotFound        (* 'Ride not found.' *)
| ReqNoSeats             (* 'No seats available for this ride.' *)
| ReqAlreadyExists       (* 'You already have a pending or accepted request for this ride.' *)
| ReqSent                (* 'Ride request sent successfully! Driver will be notified.' *)
| ReqSendFailed          (* 'Failed to send ride request. Please try again.' *)
| AcceptDone             (* 'Ride request accepted!' *)
| AcceptFailed           (* 'Failed to accept request.' *)
| CompleteDone           (* 'Ride marked as completed and payment processed!' *)
| CompleteFailed         (* 'Failed to complete ride.' *)
| WalletInvalidAmount    (* 'Please enter a valid amount.' *)
| WalletInsufficient     (* 'Insufficient balance.' *)
| WithdrawDone (amount : Z) (* `Successfully withdrew $${withdrawAmount.toFixed(2)} from your wallet.` *)
| WithdrawFailed.        (* 'Failed to withdraw funds.' *)

Record App := mkApp {
  db : Store;                                 (* the remote store *)
  userId : string;
  currentUser : User;
  userType : string;
  currentView : string;
  rides : list (string * Ride);               (* replica of the ride catalog *)
  rideRequests : list (string * RideRequest); (* replica of the request catalog *)
  wallet : Z;                                 (* replica of the caller's balance *)
  modalMessage : option Notice
}.

Definition set_db (s : Store) (a : App) : App :=
  mkApp s (userId a) (currentUser a) (userType a) (currentView a) (rides a)
        (rideRequests a) (wallet a) (modalMessage a).

Definition showMessage (message : Notice) (a : App) : App :=
  mkApp (db a) (userId a) (currentUser a) (userType a) (currentView a) (rides a)
        (rideRequests a) (wallet a) (Some message).

Definition setCurrentView (v : string) (a : App) : App :=
  mkApp (db a) (userId a) (currentUser a) (userType a) v (rides a)
        (rideRequests a) (wallet a) (modalMessage a).

Definition setCurrentUser (u : User) (a : App) : App :=
  mkApp (db a) (userId a) u (userType a) (currentView a) (rides a)
        (rideRequests a) (wallet a) (modalMessage a).

Definition setUserType (t : string) (a : App) : App :=
  mkApp (db a) (userId a) (currentUser a) t (currentView a) (rides a)
        (rideRequests a) (wallet a) (modalMessage a).

(** [try { await body; onResolve } catch (error) { onReject }] *)
Definition try_catch (body : Fire (App -> App)) (onReject : App -> App) (a : App) : App :=
  match body (db a) with
  | (s, Resolved onResolve) => onResolve (set_db s a)
  | (s, Rejected) => onReject (set_db s a)
  end.

(** Delivery of the pending snapshots by the three [onSnapshot] listeners:
    the replicas are replaced wholesale; a missing wallet document is
    created with balance 0. *)
Definition onSnapshot (a : App) : App :=
  let s := db a in
  let '(s', balance) :=
    match st_wallets s !! userId a with
    | Some b => (s, b)
    | None => (col_set walletsC (<[userId a := 0]> (st_wallets s)) s, 0)
    end in
  mkApp s' (userId a) (currentUser a) (userType a) (currentView a)
        (map_to_list (st_rides s)) (map_to_list (st_requests s)) balance
        (modalMessage a).

(** ** Registration *)

Record RegData := mkRegData {
  reg_name : string;
  reg_email : string;
  reg_phone : string;
  reg_userType : string;
  reg_vehicle : Vehicle;
  reg_licenseUploaded : bool;
  reg_idUploaded : bool
}.

(** The profile document [handleRegistration] writes. *)
Definition newProfile (regData : RegData) (now : string) : Profile :=
  {| p_name := reg_name regData;
     p_email := reg_email regData;
     p_phone := reg_phone regData;
     p_userType := reg_userType regData;
     p_vehicle := if String.eqb (reg_userType regData) "driver"
                  then Some (reg_vehicle regData) else None;
     p_verificationStatus := VerPending;
     p_createdAt := now |}.

Definition handleRegistration (regData : RegData) (now : string) (a : App) : App :=
  if negb (Js.truthy (reg_name regData)) || negb (Js.truthy (reg_email regData))
     || negb (Js.truthy (reg_phone regData)) || negb (Js.truthy (reg_userType regData))
  then showMessage RegFillRequired a
  else if String.eqb (reg_userType regData) "driver"
          && (negb (Js.truthy (v_type (reg_vehicle regData)))
              || negb (Js.truthy (v_color (reg_vehicle regData)))
              || negb (Js.truthy (v_plate (reg_vehicle regData)))
              || negb (reg_licenseUploaded regData))
  then showMessage RegVehicleDetails a
  else if String.eqb (reg_userType regData) "rider" && negb (reg_idUploaded regData)
  then showMessage RegUploadId a
  else
    try_catch
      (setDoc profilesC (userId a) (newProfile regData now);;
       mret (fun a' =>
         showMessage RegSuccessful
           (setCurrentView "home"
              (setUserType (reg_userType regData)
                 (setCurrentUser
                    (mkUser (userId a') (reg_name regData) (reg_userType regData)
                            (Some (reg_vehicle regData))) a')))))
      (showMessage RegFailed) a.

(** ** Ride posting *)

Record RideData := mkRideData {
  rd_from : string;
  rd_to : string;
  rd_startTime : string;
  rd_availableSeats : option Z;   (* [parseInt] of the input, [None] for NaN *)
  rd_pricePerSeat : option Z;     (* [parseInt] of the input, [None] for NaN *)
  rd_route : list string
}.

Definition unknownCar : Vehicle := mkVehicle "Unknown" "Unknown" "N/A".

(** The document [handlePostRide] builds; it is only built after both
    numbers were found truthy, hence not NaN. *)
Definition newRide (rideData : RideData) (now : string) (currentUser : User) : Ride :=
  let filteredRoute :=
    List.filter (fun point => negb (String.eqb (Js.trim point) "")) (rd_route rideData) in
  {| r_driverId := u_id currentUser;
     r_driverName := u_name currentUser;
     r_from := rd_from rideData;
     r_to := rd_to rideData;
     r_startTime := rd_startTime rideData;
     r_availableSeats := default 0 (rd_availableSeats rideData);
     r_pricePerSeat := default 0 (rd_pricePerSeat rideData);
     r_route := Arr (rd_from rideData :: filteredRoute ++ [rd_to rideData]);
     r_car := default unknownCar (u_vehicle currentUser);
     r_createdAt := now;
     r_status := RideActive |}.

Definition handlePostRide (rideData : RideData) (now : string) (a : App) : App :=
  if negb (Js.truthy (rd_from rideData)) || negb (Js.truthy (rd_to rideData))
     || negb (Js.truthy (rd_startTime rideData))
     || negb (Js.truthy_num (rd_availableSeats rideData))
     || negb (Js.truthy_num (rd_pricePerSeat rideData))
  then showMessage PostFillRequired a
  else if negb (String.eqb (u_userType (currentUser a)) "driver")
  then showMessage PostOnlyDrivers a
  else
    try_catch
      (addDoc ridesC (newRide rideData now (currentUser a));;
       mret (fun a' => setCurrentView "myRides" (showMessage PostSuccessful a')))
      (showMessage PostFailed) a.

(** ** Requesting a ride *)

Definition is_existing_request (rideId riderId : string) (req : RideRequest) : bool :=
  bool_decide (rq_rideId req = Some rideId)
  && String.eqb (rq_riderId req) riderId
  && (bool_decide (rq_status req = ReqPending) || bool_decide (rq_status req = ReqAccepted)).

Definition newRequest (rideId : string) (ride : Ride) (now : string) (currentUser : User)
  : RideRequest :=
  {| rq_rideId := Some rideId;
     rq_riderId := u_id currentUser;
     rq_riderName := u_name currentUser;
     rq_driverId := r_driverId ride;
     rq_driverName := r_driverName ride;
     rq_from := r_from ride;
     rq_to := r_to ride;
     rq_rideStartTime := r_startTime ride;
     rq_price := r_pricePerSeat ride;
     rq_status := ReqPending;
     rq_requestedAt := now |}.

Definition requestRide (rideId : string) (now : string) (a : App) : App :=
  if negb (String.eqb (u_userType (currentUser a)) "rider")
  then showMessage ReqOnlyRiders a
  else
    match List.find (fun r => String.eqb (fst r) rideId) (rides a) with
    | None => showMessage ReqRideNotFound a
    | Some (_, ride) =>
        if r_availableSeats ride <=? 0 then showMessage ReqNoSeats a
        else
          match List.find (fun req => is_existing_request rideId (u_id (currentUser a)) (snd req))
                          (rideRequests a) with
          | Some existingRequest => showMessage ReqAlreadyExists a
          | None =>
              try_catch
                (addDoc requestsC (newRequest rideId ride now (currentUser a));;
                 mret (showMessage ReqSent))
                (showMessage ReqSendFailed) a
          end
    end.

(** ** Request lifecycle, driver side *)

Definition acceptRequest (requestId rideId : string) (a : App) : App :=
  try_catch
    (updateDoc requestsC requestId (set_request_status ReqAccepted);;
     rideSnap ← getDoc ridesC rideId;
     match rideSnap with
     | Some data =>
         let currentSeats := r_availableSeats data in
         updateDoc ridesC rideId (set_ride_seats (currentSeats - 1))
     | None => mret tt
     end;;
     mret (showMessage AcceptDone))
    (showMessage AcceptFailed) a.

Definition is_accepted_request_of (rideId riderId : string) (req : RideRequest) : bool :=
  bool_decide (rq_rideId req = Some rideId)
  && String.eqb (rq_riderId req) riderId
  && bool_decide (rq_status req = ReqAccepted).

Definition completeRide (rideId riderId : string) (price : Z) (a : App) : App :=
  try_catch
    (updateDoc ridesC rideId (set_ride_status RideCompleted);;
     riderRequestSnap ← getDocs requestsC (is_accepted_request_of rideId riderId);
     forEach_async riderRequestSnap
       (fun docSnap => updateDoc requestsC (fst docSnap) (set_request_status ReqCompleted));;
     updateDoc walletsC (u_id (currentUser a)) (fun _ => wallet a + price);;
     riderWalletSnap ← getDoc walletsC riderId;
     match riderWalletSnap with
     | Some riderCurrentBalance =>
         updateDoc walletsC riderId (fun _ => riderCurrentBalance - price)
     | None => mret tt
     end;;
     mret (showMessage CompleteDone))
    (showMessage CompleteFailed) a.

(** ** Wallet *)

(** [withdrawAmount] is [parseFloat(amount)], [None] for NaN. *)
Definition handleWithdrawFunds (withdrawAmount : option Z) (a : App) : App :=
  match withdrawAmount with
  | None => showMessage WalletInvalidAmount a
  | Some w =>
      if w <=? 0 then showMessage WalletInvalidAmount a
      else if wallet a <? w then showMessage WalletInsufficient a
      else
        try_catch
          (updateDoc walletsC (userId a) (fun _ => wallet a - w);;
           mret (showMessage (WithdrawDone w)))
          (showMessage WithdrawFailed) a
  end.

(** ** The search criterion in the words of the specification

    The specification treats the criteria's [from], [to] and route points
    as three separate inputs: the route points are the entries of the
    criteria's route list, and the overlap test is gated on one of them
    being supplied. *)

Definition suppliedRoutePoints (searchQuery : SearchQuery) : list string :=
  List.filter nonblank (sq_route searchQuery).

Definition spec_searchRides_includes (searchQuery : SearchQuery) (ride : Ride) : Prop :=
  (sq_from searchQuery <> "" ->
     Js.includes (Js.toLowerCase (r_from ride)) (Js.toLowerCase (sq_from searchQuery)) = true)
  /\ (sq_to searchQuery <> "" ->
     Js.includes (Js.toLowerCase (r_to ride)) (Js.toLowerCase (sq_to searchQuery)) = true)
  /\ 0 < r_availableSeats ride
  /\ (suppliedRoutePoints searchQuery <> [] ->
     checkRouteOverlap (r_route ride) (Arr (fullSearchRoute searchQuery)) = true).

(** ** The requirements of registration

    What [handleRegistration] asks of the form before it writes: the four
    text fields non-empty, for a driver the three vehicle fields and the
    license flag, for a rider the ID flag. *)

Definition reg_valid (regData : RegData) : Prop :=
  reg_name regData <> "" /\ reg_email regData <> "" /\ reg_phone regData <> ""
  /\ reg_userType regData <> ""
  /\ (reg_userType regData = "driver" ->
      v_type (reg_vehicle regData) <> "" /\ v_color (reg_vehicle regData) <> ""
      /\ v_plate (reg_vehicle regData) <> "" /\ reg_licenseUploaded regData = true)
  /\ (reg_userType regData = "rider" -> reg_idUploaded regData = true).

(** ** Sample data *)

Module Sample.

Definition car : Vehicle := mkVehicle "Sedan" "Blue" "ABC 123".

(** The ride of the specification's search scenario, which carries no
    route field. *)
Definition scenario_ride : Ride :=
  {| r_driverId := "driver-1"; r_driverName := "Dana";
     r_from := "Toronto Downtown"; r_to := "Mississauga";
     r_startTime := "2025-06-01T08:00";
     r_availableSeats := 2; r_pricePerSeat := 15;
     r_route := NotArray; r_car := car;
     r_createdAt := "2025-05-30T10:00:00.000Z"; r_status := RideActive |}.

(** The same ride as [handlePostRide] stores it. *)
Definition posted_ride : Ride :=
  {| r_driverId := "driver-1"; r_driverName := "Dana";
     r_from := "Toronto Downtown"; r_to := "Mississauga";
     r_startTime := "2025-06-01T08:00";
     r_availableSeats := 2; r_pricePerSeat := 15;
     r_route := Arr ["Toronto Downtown"; "Mississauga"]; r_car := car;
     r_createdAt := "2025-05-30T10:00:00.000Z"; r_status := RideActive |}.

Definition scenario_query : SearchQuery := mkQuery "Downtown" "Mississauga" [""].

Definition airport_query : SearchQuery := mkQuery "" "" ["Airport"].

Definition driver : User := mkUser "driver-1" "Dana" "driver" (Some car).
Definition rider1 : User := mkUser "rider-1" "Riley" "rider" None.
Definition rider3 : User := mkUser "rider-3" "Sam" "rider" None.

(** A posted ride with a single seat left. *)
Definition one_seat_ride : Ride := set_ride_seats 1 posted_ride.

Definition pending_request (riderId riderName : string) : RideRequest :=
  {| rq_rideId := Some "ride-1"; rq_riderId := riderId; rq_riderName := riderName;
     rq_driverId := "driver-1"; rq_driverName := "Dana";
     rq_from := "Toronto Downtown"; rq_to := "Mississauga";
     rq_rideStartTime := "2025-06-01T08:00"; rq_price := 15;
     rq_status := ReqPending; rq_requestedAt := "2025-05-31T09:00:00.000Z" |}.

(** One ride with one seat, two pending requests against it, a wallet for
    the driver and for the first rider; the second rider never opened the
    application, so has no wallet document. *)
Definition store : Store :=
  {| st_profiles := ∅;
     st_rides := {[ "ride-1" := one_seat_ride ]};
     st_requests := <[ "req-1" := pending_request "rider-1" "Riley" ]>
                      {[ "req-2" := pending_request "rider-2" "Robin" ]};
     st_wallets := <[ "driver-1" := 100 ]> {[ "rider-1" := 10 ]} |}.

(** The state of a signed-in user whose replicas are up to date. *)
Definition app_of (s : Store) (u : User) : App :=
  onSnapshot (mkApp s (u_id u) u (u_userType u) "home" [] [] 0 None).

Definition driver_app : App := app_of store driver.
Definition rider1_app : App := app_of store rider1.
Definition rider3_app : App := app_of store rider3.

Definition driver_form : RegData :=
  {| reg_name := "Dana"; reg_email := "dana@example.org"; reg_phone := "555-0100";
     reg_userType := "driver"; reg_vehicle := car;
     reg_licenseUploaded := true; reg_idUploaded := false |}.

(** A rider's form with the ID not uploaded. *)
Definition rider_form_no_id : RegData :=
  {| reg_name := "Riley"; reg_email := "riley@example.org"; reg_phone := "555-0101";
     reg_userType := "rider"; reg_vehicle := mkVehicle "" "" "";
     reg_licenseUploaded := false; reg_idUploaded := false |}.

Definition ride_form : RideData :=
  {| rd_from := "Toronto Downtown"; rd_to := "Mississauga";
     rd_startTime := "2025-06-01T08:00";
     rd_availableSeats := Some 2; rd_pricePerSeat := Some 15;
     rd_route := [""; "Etobicoke"; "  "] |}.

(** The same form with the destination left empty. *)
Definition ride_form_no_to : RideData :=
  {| rd_from := "Toronto Downtown"; rd_to := "";
     rd_startTime := "2025-06-01T08:00";
     rd_availableSeats := Some 2; rd_pricePerSeat := Some 15;
     rd_route := [""] |}.

(** The same form with a negative seat count typed in. *)
Definition ride_form_negative : RideData :=
  {| rd_from := "Toronto Downtown"; rd_to := "Mississauga";
     rd_startTime := "2025-06-01T08:00";
     rd_availableSeats := Some (-3); rd_pricePerSeat := Some 15;
     rd_route := [""] |}.

(** The first rider after the driver accepted and completed the ride at
    its price of 15: the balance of 10 went to -5. *)
Definition overdrawn_app : App :=
  app_of (db (completeRide "ride-1" "rider-1" 15
                (acceptRequest "req-1" "ride-1" driver_app))) rider1.

End Sample.

(** * Further handlers

    The handlers below reach the client state only through [showMessage];
    they are embedded on the part of the state they read and write, the
    variables of the enclosing component they use ([userId], [wallet],
    [currentUser]) being arguments, and return the notice they show. *)

(** [try { await body; showMessage(done) } catch (error) { showMessage(failed) }] *)
Definition try_notify {A N} (body : Fire A) (done failed : N) (s : Store) : Store * N :=
  match body s with
  | (s', Resolved _) => (s', done)
  | (s', Rejected) => (s', failed)
  end.

(** ** Request lifecycle: rejecting and cancelling *)

Inductive LifecycleNotice :=
| RejectDone     (* 'Ride request rejected.' *)
| RejectFailed   (* 'Failed to reject request.' *)
| CancelDone     (* 'Ride request cancelled.' *)
| CancelFailed.  (* 'Failed to cancel request.' *)

Definition rejectRequest (requestId : string) : Store -> Store * LifecycleNotice :=
  try_notify (updateDoc requestsC requestId (set_request_status ReqRejected))
             RejectDone RejectFailed.

Definition cancelRequest (requestId : string) : Store -> Store * LifecycleNotice :=
  try_notify (updateDoc requestsC requestId (set_request_status ReqCancelled))
             CancelDone CancelFailed.

(** ** Wallet: adding funds *)

Inductive DepositNotice :=
| DepositInvalidAmount        (* 'Please enter a valid amount.' *)
| DepositDone (amount : Z)    (* `Successfully added $${depositAmount.toFixed(2)} to your wallet.` *)
| DepositFailed.              (* 'Failed to add funds.' *)

(** [depositAmount] is [parseFloat(amount)], [None] for NaN; [wallet] is the
    balance the replica shows. *)
Definition handleAddFunds (depositAmount : option Z) (userId : string) (wallet : Z)
  (s : Store) : Store * DepositNotice :=
  match depositAmount with
  | None => (s, DepositInvalidAmount)
  | Some d =>
      if d <=? 0 then (s, DepositInvalidAmount)
      else try_notify (updateDoc walletsC userId (fun _ => wallet + d))
                      (DepositDone d) DepositFailed s
  end.

(** ** Editing the stops of the ride form *)

Definition set_rd_route (route : list string) (rideData : RideData) : RideData :=
  mkRideData (rd_from rideData) (rd_to rideData) (rd_startTime rideData)
             (rd_availableSeats rideData) (rd_pricePerSeat rideData) route.

(** [route: [...rideData.route, '']] *)
Definition addRoutePoint (rideData : RideData) : RideData :=
  set_rd_route (rd_route rideData ++ [""])%list rideData.

(** [rideData.route.filter((_, i) => i !== index)] *)
Definition removeRoutePoint (index : nat) (rideData : RideData) : RideData :=
  set_rd_route
    (map snd (List.filter (fun ip => negb (Nat.eqb (fst ip) index))
                (combine (seq 0 (List.length (rd_route rideData))) (rd_route rideData))))
    rideData.

(** ** Chat *)

Record Message := mkMessage {
  m_senderId : string;
  m_senderName : string;
  m_text : string;
  m_timestamp : string
}.

(** A document of the messages collection; either field may be missing. *)
Record ChatDoc := mkChatDoc {
  c_participants : option (list string);
  c_messages : option (list Message);
  c_createdAt : string
}.

Record ActiveChat := mkActiveChat {
  ac_id : string;
  ac_name : string;
  ac_rideInfo : string;
  ac_partnerId : string
}.

Inductive ChatNotice :=
| MessageEmpty    (* "Message cannot be empty." *)
| MessageFailed.  (* "Failed to send message. Please try again." *)

(** The state the chat handlers read and write. *)
Record Messenger := mkMessenger {
  chat_db : gmap string ChatDoc;            (* public/data/messages *)
  chat_userId : string;                     (* userId *)
  chat_user : User;                         (* currentUser *)
  messages : gmap string (list Message);    (* replica: thread id to messages *)
  activeChat : option ActiveChat;
  newMessage : string;
  chat_view : string;                       (* currentView *)
  chat_modal : option ChatNotice
}.

(** Typing into the message box. *)
Definition setNewMessage (text : string) (m : Messenger) : Messenger :=
  mkMessenger (chat_db m) (chat_userId m) (chat_user m) (messages m)
              (activeChat m) text (chat_view m) (chat_modal m).

(** [updateDoc(chatDocRef, { messages: updatedMessages })] *)
Definition set_chat_messages (msgs : list Message) (d : ChatDoc) : ChatDoc :=
  mkChatDoc (c_participants d) (Some msgs) (c_createdAt d).

(** [now] stamps the message, [now'] the thread when it is created.  The
    three store operations cannot reject here: [updateDoc] is only reached
    for a document that exists. *)
Definition sendMessage (now now' : string) (m : Messenger) : Messenger :=
  match activeChat m with
  | Some chat =>
      if negb (Js.truthy (Js.trim (newMessage m)))
      then mkMessenger (chat_db m) (chat_userId m) (chat_user m) (messages m)
                       (activeChat m) (newMessage m) (chat_view m) (Some MessageEmpty)
      else
        let chatId := ac_id chat in
        let message := mkMessage (u_id (chat_user m)) (u_name (chat_user m))
                                 (newMessage m) now in
        match chat_db m !! chatId with
        | Some currentChatData =>
            let updatedMessages := (default [] (c_messages currentChatData) ++ [message])%list in
            mkMessenger (<[chatId := set_chat_messages updatedMessages currentChatData]>
                           (chat_db m))
                        (chat_userId m) (chat_user m)
                        (<[chatId := updatedMessages]> (messages m))
                        (activeChat m) "" (chat_view m) (chat_modal m)
        | None =>
            let updatedMessages := [] in
            mkMessenger (<[chatId := mkChatDoc (Some [u_id (chat_user m); ac_partnerId chat])
                                               (Some [message]) now']>
                           (chat_db m))
                        (chat_userId m) (chat_user m)
                        (<[chatId := updatedMessages]> (messages m))
                        (activeChat m) "" (chat_view m) (chat_modal m)
        end
  | None =>
      mkMessenger (chat_db m) (chat_userId m) (chat_user m) (messages m)
                  (activeChat m) (newMessage m) (chat_view m) (Some MessageEmpty)
  end.

(** [`ride-${ride.id}-rider-${currentUser.id}`] *)
Definition chatIdOf (rideId riderId : string) : string :=
  "ride-" +:+ rideId +:+ "-rider-" +:+ riderId.

(** [startChat(ride)], the ride being a document of the ride replica. *)
Definition startChat (ride : string * Ride) (now : string) (m : Messenger) : Messenger :=
  let chatId := chatIdOf (fst ride) (u_id (chat_user m)) in
  let chats :=
    match chat_db m !! chatId with
    | Some _ => chat_db m
    | None =>
        <[chatId := mkChatDoc (Some [u_id (chat_user m); r_driverId (snd ride)])
                              (Some []) now]> (chat_db m)
    end in
  mkMessenger chats (chat_userId m) (chat_user m) (messages m)
              (Some (mkActiveChat chatId (r_driverName (snd ride))
                                  (r_from (snd ride) +:+ " to " +:+ r_to (snd ride))
                                  (r_driverId (snd ride))))
              (newMessage m) "messages" (chat_modal m).

(** [chatData.participants && chatData.participants.includes(userId)] *)
Definition participates (userId : string) (chatData : ChatDoc) : bool :=
  match c_participants chatData with
  | Some ps => existsb (String.eqb userId) ps
  | None => false
  end.

(** The messages listener: the replica is rebuilt from the threads the
    user takes part in, a missing message list read as empty. *)
Definition onMessagesSnapshot (m : Messenger) : Messenger :=
  mkMessenger (chat_db m) (chat_userId m) (chat_user m)
              (omap (fun chatData =>
                       if participates (chat_userId m) chatData
                       then Some (default [] (c_messages chatData)) else None)
                    (chat_db m))
              (activeChat m) (newMessage m) (chat_view m) (chat_modal m).

(** No [-] among the code units of an identifier, as in the identifiers
    the store and the identity provider generate. *)
Fixpoint hyphen_free (s : string) : bool :=
  match s with
  | EmptyString => true
  | String c s' => negb (Ascii.eqb c "-") && hyphen_free s'
  end.

(** ** More sample data *)

Module Sample2.

Definition hello : Message :=
  mkMessage "rider-1" "Riley" "Hello" "2025-05-31T11:00:00.000Z".

Definition thread : ChatDoc :=
  mkChatDoc (Some ["rider-1"; "driver-1"]) (Some [hello]) "2025-05-31T10:59:00.000Z".

Definition other_thread : ChatDoc :=
  mkChatDoc (Some ["rider-2"; "driver-9"]) (Some []) "2025-05-30T08:00:00.000Z".

Definition chat_with_driver : ActiveChat :=
  mkActiveChat "ride-ride1-rider-rider-1" "Dana" "Toronto Downtown to Mississauga" "driver-1".

(** The first rider with one thread open and a reply typed in. *)
Definition messenger : Messenger :=
  {| chat_db := <[ "ride-ride1-rider-rider-1" := thread ]> {[ "other" := other_thread ]};
     chat_userId := "rider-1"; chat_user := Sample.rider1;
     messages := {[ "ride-ride1-rider-rider-1" := [hello] ]};
     activeChat := Some chat_with_driver;
     newMessage := "See you at 8";
     chat_view := "messages"; chat_modal := None |}.

(** The same rider before any thread with the driver exists. *)
Definition fresh_messenger : Messenger :=
  {| chat_db := {[ "other" := other_thread ]};
     chat_userId := "rider-1"; chat_user := Sample.rider1;
     messages := ∅;
     activeChat := Some chat_with_driver;
     newMessage := "Hi";
     chat_view := "messages"; chat_modal := None |}.

(** A driver whose wallet snapshot has not been delivered yet, so whose
    wallet document does not exist. *)
Definition walletless_driver_app : App :=
  mkApp Sample.store "driver-7" (mkUser "driver-7" "Drew" "driver" None) "driver"
        "myRides" [] [] 0 None.

End Sample2.

(** * Properties *)

(** Unfolds the monadic plumbing of a handler down to the store operations. *)
Ltac fire :=
  unfold try_catch, mbind, mret, Fire_bind, Fire_ret, getDoc, setDoc, addDoc; simpl.

(** ** String primitives on sample inputs *)

Example trim_inner_space : Js.trim "  Union  Station  " = "Union  Station".
Proof. reflexivity. Qed.

Example trim_blank : Js.trim "   " = "" /\ nonblank "   " = false /\ nonblank " x" = true.
Proof. repeat split. Qed.

Example toLowerCase_mixed : Js.toLowerCase "Toronto Downtown-401" = "toronto downtown-401".
Proof. reflexivity. Qed.

Example includes_cases :
  Js.includes "toronto downtown" "downtown" = true
  /\ Js.includes "downtown" "toronto downtown" = false
  /\ Js.includes "downtown" "" = true
  /\ Js.includes "" "a" = false.
Proof. repeat split. Qed.

(** ** Route overlap *)

Lemma existsb_swap {A B} (f : A -> B -> bool) (l1 : list A) (l2 : list B) :
  existsb (fun x => existsb (fun y => f x y) l2) l1
  = existsb (fun y => existsb (fun x => f x y) l1) l2.
Proof.
  apply Bool.eq_iff_eq_true. rewrite !existsb_exists. split.
  - intros (x & Hx & H). apply existsb_exists in H as (y & Hy & H).
    exists y. split; [done|]. apply existsb_exists. eauto.
  - intros (y & Hy & H). apply existsb_exists in H as (x & Hx & H).
    exists x. split; [done|]. apply existsb_exists. eauto.
Qed.

Lemma existsb_pointwise {A} (f g : A -> bool) (l : list A) :
  (forall x, f x = g x) -> existsb f l = existsb g l.
Proof. intros H. induction l as [|x l IH]; simpl; [done | by rewrite H, IH]. Qed.

Lemma overlap_points_sym (l1 l2 : list string) :
  overlap_points l1 l2 = overlap_points l2 l1.
Proof.
  unfold overlap_points. rewrite existsb_swap.
  apply existsb_pointwise. intros y. apply existsb_pointwise. intros x.
  apply orb_comm.
Qed.

(** C7. Route overlap is symmetric: for all route values [A] and [B]
    (arrays of waypoints or non-arrays),
    [checkRouteOverlap A B = checkRouteOverlap B A]. *)
Theorem checkRouteOverlap_sym (A B : JsRoute) :
  checkRouteOverlap A B = checkRouteOverlap B A.
Proof.
  destruct A as [|[|a r1]], B as [|[|b r2]]; try reflexivity.
  unfold checkRouteOverlap. apply overlap_points_sym.
Qed.

Lemma checkRouteOverlap_empty_r (A : JsRoute) : checkRouteOverlap A (Arr []) = false.
Proof. by destruct A as [|[|? ?]]. Qed.

Lemma checkRouteOverlap_empty_l (A : JsRoute) : checkRouteOverlap (Arr []) A = false.
Proof. by destruct A as [|[|? ?]]. Qed.

Lemma checkRouteOverlap_notarray_r (A : JsRoute) : checkRouteOverlap A NotArray = false.
Proof. by destruct A as [|[|? ?]]. Qed.

Lemma checkRouteOverlap_notarray_l (A : JsRoute) : checkRouteOverlap NotArray A = false.
Proof. done. Qed.

(** ** Ride search *)

Lemma truthy_true (s : string) : Js.truthy s = true <-> s <> "".
Proof.
  unfold Js.truthy. rewrite negb_true_iff. split.
  - intros H ->. by rewrite String.eqb_refl in H.
  - intros H. by apply String.eqb_neq.
Qed.

Lemma truthy_false (s : string) : Js.truthy s = false <-> s = "".
Proof.
  unfold Js.truthy. rewrite negb_false_iff. apply String.eqb_eq.
Qed.

Lemma fromMatch_true (q : SearchQuery) (ride : Ride) :
  fromMatch q ride = true <->
  (sq_from q <> "" ->
   Js.includes (Js.toLowerCase (r_from ride)) (Js.toLowerCase (sq_from q)) = true).
Proof.
  unfold fromMatch. destruct (Js.truthy (sq_from q)) eqn:E.
  - apply truthy_true in E. tauto.
  - apply truthy_false in E. split; [congruence | done].
Qed.

Lemma toMatch_true (q : SearchQuery) (ride : Ride) :
  toMatch q ride = true <->
  (sq_to q <> "" ->
   Js.includes (Js.toLowerCase (r_to ride)) (Js.toLowerCase (sq_to q)) = true).
Proof.
  unfold toMatch. destruct (Js.truthy (sq_to q)) eqn:E.
  - apply truthy_true in E. tauto.
  - apply truthy_false in E. split; [congruence | done].
Qed.

Lemma routeMatch_true (q : SearchQuery) (ride : Ride) :
  routeMatch q ride = true <->
  (fullSearchRoute q <> [] ->
   checkRouteOverlap (r_route ride) (Arr (fullSearchRoute q)) = true).
Proof.
  unfold routeMatch. destruct (fullSearchRoute q) as [|p l].
  - split; [congruence | done].
  - split; [done | intros H; by apply H].
Qed.

Lemma filter_nil_iff {A} (f : A -> bool) (l : list A) :
  List.filter f l = [] <-> Forall (fun x => f x = false) l.
Proof.
  induction l as [|x l IH]; simpl.
  - split; [constructor | done].
  - destruct (f x) eqn:E.
    + split; [done | inversion 1; congruence].
    + rewrite IH. split; [by constructor | by inversion 1].
Qed.

Lemma Forall_filter_false {A} (f : A -> bool) (l : list A) :
  Forall (fun x => f x = false) (List.filter f l) <-> Forall (fun x => f x = false) l.
Proof.
  induction l as [|x l IH]; simpl; [done|].
  destruct (f x) eqn:E; rewrite !Forall_cons, ?IH; intuition congruence.
Qed.

(** The search route is empty exactly when [from], [to] and every route
    point of the criteria are blank. *)
Lemma fullSearchRoute_nil (q : SearchQuery) :
  fullSearchRoute q = [] <->
  nonblank (sq_from q) = false /\ nonblank (sq_to q) = false
  /\ Forall (fun p => nonblank p = false) (sq_route q).
Proof.
  unfold fullSearchRoute.
  rewrite filter_nil_iff, Forall_cons, Forall_app, Forall_singleton.
  rewrite Forall_filter_false. tauto.
Qed.

Lemma handleSearch_In (rides : list (string * Ride)) (q : SearchQuery) (x : string * Ride) :
  In x (handleSearch rides q) <->
  In x rides /\ fromMatch q (snd x) = true /\ toMatch q (snd x) = true
  /\ seatsAvailable (snd x) = true /\ routeMatch q (snd x) = true.
Proof.
  unfold handleSearch. rewrite filter_In. destruct x as [id ride]; simpl.
  rewrite !andb_true_iff. tauto.
Qed.

(** C6, as the code has it.  [handleSearch] returns a ride of the catalog
    iff: when the criteria's [from] is non-empty, the ride's [from] contains
    it as a case-insensitive substring; likewise for [to]; the ride has
    [availableSeats > 0]; and, when the search route is non-empty, the
    ride's route overlaps it.  The search route is
    [[from, ...route points, to]] of the criteria with the blank entries
    dropped, so [from] and [to] count as route points: the overlap test is
    skipped only when [from], [to] and every route point are blank. *)
Theorem handleSearch_includes_iff
  (rides : list (string * Ride)) (q : SearchQuery) (x : string * Ride) :
  (In x (handleSearch rides q) <->
     In x rides
     /\ (sq_from q <> "" ->
         Js.includes (Js.toLowerCase (r_from (snd x))) (Js.toLowerCase (sq_from q)) = true)
     /\ (sq_to q <> "" ->
         Js.includes (Js.toLowerCase (r_to (snd x))) (Js.toLowerCase (sq_to q)) = true)
     /\ 0 < r_availableSeats (snd x)
     /\ (fullSearchRoute q <> [] ->
         checkRouteOverlap (r_route (snd x)) (Arr (fullSearchRoute q)) = true))
  /\ (fullSearchRoute q = [] <->
        nonblank (sq_from q) = false /\ nonblank (sq_to q) = false
        /\ Forall (fun p => nonblank p = false) (sq_route q)).
Proof.
  split; [|apply fullSearchRoute_nil].
  rewrite handleSearch_In, fromMatch_true, toMatch_true, routeMatch_true.
  unfold seatsAvailable. rewrite Z.ltb_lt. tauto.
Qed.

Lemma handleSearch_includes_iff_witness :
  In ("ride-1", Sample.posted_ride)
     (handleSearch [("ride-1", Sample.posted_ride)] Sample.scenario_query).
Proof.
  apply (proj1 (handleSearch_includes_iff
                  [("ride-1", Sample.posted_ride)] Sample.scenario_query
                  ("ride-1", Sample.posted_ride))).
  split; [left; reflexivity|].
  split; [intros _; reflexivity|].
  split; [intros _; reflexivity|].
  split; [reflexivity|].
  intros _; reflexivity.
Defined.

(** C6, as the specification words it, fails on the specification's own
    scenario: the criteria [{from: "Downtown", to: "Mississauga"}] supply no
    route point and the ride [{from: "Toronto Downtown", to: "Mississauga",
    availableSeats: 2}] meets the [from], [to] and seat conditions, yet
    [handleSearch] does not return it, because [from] and [to] make the
    search route non-empty and the ride has no route to overlap it. *)
Lemma searchRides_spec_counterexample :
  spec_searchRides_includes Sample.scenario_query Sample.scenario_ride
  /\ suppliedRoutePoints Sample.scenario_query = []
  /\ handleSearch [("ride-1", Sample.scenario_ride)] Sample.scenario_query = [].
Proof.
  split; [|split; reflexivity].
  repeat split; try (intros _; reflexivity).
  intros H. by contradict H.
Qed.

(** The overlap test is case-insensitive. *)
Example overlap_downtown :
  checkRouteOverlap (Arr ["Downtown"]) (Arr ["downtown plaza"]) = true.
Proof. reflexivity. Qed.

Lemma supplied_point_fullSearchRoute (q : SearchQuery) (p : string) :
  In p (sq_route q) -> nonblank p = true -> fullSearchRoute q <> [].
Proof.
  intros Hp Hnb Hnil. apply fullSearchRoute_nil in Hnil as (_ & _ & Hall).
  rewrite Forall_forall in Hall. apply list_elem_of_In in Hp.
  specialize (Hall p Hp). congruence.
Qed.

(** C10. For every route value [A], [checkRouteOverlap A [] = false] and
    [checkRouteOverlap [] A = false], and likewise when either argument is
    not an array.  Consequently a ride whose stored route is empty or
    missing is not returned by any search whose criteria supply at least
    one non-blank route point, whatever its [from] and [to] fields are. *)
Theorem checkRouteOverlap_empty_or_missing
  (A : JsRoute) (rides : list (string * Ride)) (q : SearchQuery) (x : string * Ride) :
  (checkRouteOverlap A (Arr []) = false
   /\ checkRouteOverlap (Arr []) A = false
   /\ checkRouteOverlap A NotArray = false
   /\ checkRouteOverlap NotArray A = false)
  /\ (r_route (snd x) = Arr [] \/ r_route (snd x) = NotArray ->
      (exists p, In p (sq_route q) /\ nonblank p = true) ->
      ~ In x (handleSearch rides q)).
Proof.
  split.
  - auto using checkRouteOverlap_empty_r, checkRouteOverlap_empty_l,
      checkRouteOverlap_notarray_r, checkRouteOverlap_notarray_l.
  - intros Hroute (p & Hp & Hnb) Hin.
    apply handleSearch_In in Hin as (_ & _ & _ & _ & Hm).
    apply routeMatch_true in Hm; [|by eapply supplied_point_fullSearchRoute].
    destruct Hroute as [Hr | Hr]; rewrite Hr in Hm;
      [by rewrite checkRouteOverlap_empty_l in Hm | done].
Qed.

Lemma checkRouteOverlap_empty_or_missing_witness :
  ~ In ("ride-1", Sample.scenario_ride)
       (handleSearch [("ride-1", Sample.scenario_ride)] Sample.airport_query).
Proof.
  apply (proj2 (checkRouteOverlap_empty_or_missing NotArray
                  [("ride-1", Sample.scenario_ride)] Sample.airport_query
                  ("ride-1", Sample.scenario_ride))).
  - right. reflexivity.
  - exists "Airport". split; [left; reflexivity | reflexivity].
Defined.

(** ** Store operations *)

Lemma updateDoc_present {V} (c : Coll V) (id : string) (f : V -> V) (s : Store) (v : V) :
  col_get c s !! id = Some v ->
  updateDoc c id f s = (col_set c (<[id := f v]> (col_get c s)) s, Resolved tt).
Proof. intros H. unfold updateDoc. by rewrite H. Qed.

Lemma updateDoc_absent {V} (c : Coll V) (id : string) (f : V -> V) (s : Store) :
  col_get c s !! id = None -> updateDoc c id f s = (s, Rejected).
Proof. intros H. unfold updateDoc. by rewrite H. Qed.

(** ** Accepting a request *)

(** [acceptRequest] on an existing request and ride: the request becomes
    accepted and the seat count goes down by one, whatever it was. *)
Lemma acceptRequest_effect (a : App) (requestId rideId : string)
  (rq : RideRequest) (ride : Ride) :
  st_requests (db a) !! requestId = Some rq ->
  st_rides (db a) !! rideId = Some ride ->
  acceptRequest requestId rideId a
  = showMessage AcceptDone
      (set_db
         {| st_profiles := st_profiles (db a);
            st_rides := <[rideId := set_ride_seats (r_availableSeats ride - 1) ride]>
                          (st_rides (db a));
            st_requests := <[requestId := set_request_status ReqAccepted rq]>
                             (st_requests (db a));
            st_wallets := st_wallets (db a) |} a).
Proof.
  intros Hrq Hride. unfold acceptRequest. fire.
  rewrite (updateDoc_present requestsC requestId _ (db a) rq Hrq). simpl.
  rewrite Hride.
  by erewrite (updateDoc_present ridesC rideId) by exact Hride.
Qed.

(** C1, as the code behaves.  For every ride with [availableSeats = 1] and
    two requests against it, [acceptRequest] on the first and then on the
    second request accepts both: the second call reports 'Ride request
    accepted!' as well, and the ride is left with [availableSeats = -1]. *)
Theorem acceptRequest_twice_overbooks (a : App) (req1 req2 rideId : string)
  (rq1 rq2 : RideRequest) (ride : Ride) :
  req1 <> req2 ->
  st_requests (db a) !! req1 = Some rq1 ->
  st_requests (db a) !! req2 = Some rq2 ->
  st_rides (db a) !! rideId = Some ride ->
  r_availableSeats ride = 1 ->
  let a' := acceptRequest req2 rideId (acceptRequest req1 rideId a) in
  modalMessage a' = Some AcceptDone
  /\ rq_status <$> st_requests (db a') !! req1 = Some ReqAccepted
  /\ rq_status <$> st_requests (db a') !! req2 = Some ReqAccepted
  /\ r_availableSeats <$> st_rides (db a') !! rideId = Some (-1).
Proof.
  intros Hne H1 H2 Hride Hseats a'. subst a'.
  rewrite (acceptRequest_effect a req1 rideId rq1 ride H1 Hride).
  erewrite acceptRequest_effect; simpl.
  2: { rewrite lookup_insert_ne by done. exact H2. }
  2: { apply lookup_insert_eq. }
  rewrite lookup_insert_eq, lookup_insert_ne, !lookup_insert_eq by done.
  simpl. rewrite Hseats. done.
Qed.

Lemma acceptRequest_twice_overbooks_witness :
  let a' := acceptRequest "req-2" "ride-1" (acceptRequest "req-1" "ride-1" Sample.driver_app) in
  modalMessage a' = Some AcceptDone
  /\ rq_status <$> st_requests (db a') !! "req-1" = Some ReqAccepted
  /\ rq_status <$> st_requests (db a') !! "req-2" = Some ReqAccepted
  /\ r_availableSeats <$> st_rides (db a') !! "ride-1" = Some (-1).
Proof.
  apply (acceptRequest_twice_overbooks Sample.driver_app "req-1" "req-2" "ride-1"
           (Sample.pending_request "rider-1" "Riley")
           (Sample.pending_request "rider-2" "Robin") Sample.one_seat_ride).
  - discriminate.
  - vm_compute; reflexivity.
  - vm_compute; reflexivity.
  - vm_compute; reflexivity.
  - vm_compute; reflexivity.
Defined.

(** ** Completing a ride *)

Lemma updateDoc_requests_fst (k : string) (f : RideRequest -> RideRequest) (s : Store) :
  let s' := fst (updateDoc requestsC k f s) in
  st_profiles s' = st_profiles s /\ st_rides s' = st_rides s
  /\ st_wallets s' = st_wallets s
  /\ forall id, st_requests s' !! id
                = if decide (k = id) then f <$> st_requests s !! id
                  else st_requests s !! id.
Proof.
  unfold updateDoc. simpl. destruct (st_requests s !! k) as [v|] eqn:E; simpl.
  - repeat split. intros id. case_decide as Hk.
    + subst. by rewrite lookup_insert_eq, E.
    + by rewrite lookup_insert_ne.
  - repeat split. intros id. case_decide as Hk; [subst; by rewrite E | done].
Qed.

Lemma forEach_requests_fst (f : RideRequest -> RideRequest)
  (docs : list (string * RideRequest)) (s : Store) :
  (forall q, f (f q) = f q) ->
  let s' := fold_left (fun s0 d => fst (updateDoc requestsC (fst d) f s0)) docs s in
  st_profiles s' = st_profiles s /\ st_rides s' = st_rides s
  /\ st_wallets s' = st_wallets s
  /\ forall id, st_requests s' !! id
                = if decide (id ∈ map fst docs) then f <$> st_requests s !! id
                  else st_requests s !! id.
Proof.
  intros Hidem. revert s. induction docs as [|d docs IH]; intros s; simpl.
  - repeat split.
  - destruct (IH (fst (updateDoc requestsC (fst d) f s))) as (Hp & Hr & Hw & Hq).
    destruct (updateDoc_requests_fst (fst d) f s) as (Hp' & Hr' & Hw' & Hq').
    simpl in *. repeat split; try congruence.
    intros id. rewrite Hq, Hq'.
    destruct (decide (d.1 = id)) as [Heq|Hne];
      destruct (decide (id ∈ map fst docs)) as [Hin|Hnin];
      destruct (decide (id ∈ d.1 :: map fst docs)) as [Hin'|Hnin']; try done.
    + destruct (st_requests s !! id); simpl; [by rewrite Hidem | done].
    + exfalso. apply Hnin'. by apply list_elem_of_further.
    + exfalso. apply Hnin'. rewrite Heq. apply list_elem_of_here.
    + exfalso. apply Hnin'. by apply list_elem_of_further.
    + apply elem_of_cons in Hin' as [?|?]; done.
Qed.

Lemma In_query_keys {V} (m : gmap string V) (p : V -> bool) (id : string) :
  id ∈ map fst (List.filter (fun d => p (snd d)) (map_to_list m))
  <-> exists v, m !! id = Some v /\ p v = true.
Proof.
  rewrite list_elem_of_In, in_map_iff. split.
  - intros ([k v] & <- & Hin). apply filter_In in Hin as (Hin & Hp).
    apply list_elem_of_In, elem_of_map_to_list in Hin. eauto.
  - intros (v & Hm & Hp). exists (id, v). split; [done|].
    apply filter_In. split; [|done].
    by apply list_elem_of_In, elem_of_map_to_list.
Qed.

(** [completeRide] on an existing ride, called by a driver whose wallet
    document exists. *)
Lemma completeRide_effect (a : App) (rideId riderId : string) (price : Z)
  (ride : Ride) (bd : Z) :
  st_rides (db a) !! rideId = Some ride ->
  st_wallets (db a) !! u_id (currentUser a) = Some bd ->
  let a' := completeRide rideId riderId price a in
  modalMessage a' = Some CompleteDone
  /\ st_profiles (db a') = st_profiles (db a)
  /\ st_rides (db a') = <[rideId := set_ride_status RideCompleted ride]> (st_rides (db a))
  /\ (forall id, st_requests (db a') !! id
                 = (fun q => if is_accepted_request_of rideId riderId q
                             then set_request_status ReqCompleted q else q)
                     <$> st_requests (db a) !! id)
  /\ st_wallets (db a')
     = (let credited := <[u_id (currentUser a) := wallet a + price]> (st_wallets (db a)) in
        match credited !! riderId with
        | Some riderCurrentBalance => <[riderId := riderCurrentBalance - price]> credited
        | None => credited
        end).
Proof.
  intros Hride Hwallet. unfold completeRide. fire.
  rewrite (updateDoc_present ridesC rideId _ (db a) ride Hride). simpl.
  unfold getDocs, forEach_async. simpl.
  match goal with |- context [fold_left ?g ?l ?s0] => 
    destruct (forEach_requests_fst (set_request_status ReqCompleted) l s0)
      as (Hp & Hr & Hw & Hq); [by intros []|];
    set (s1 := fold_left g l s0) in *
  end.
  simpl in Hp, Hr, Hw, Hq.
  erewrite (updateDoc_present walletsC _ _ s1) by (simpl; rewrite Hw; exact Hwallet).
  simpl. rewrite Hw.
  assert (Hreq : forall id, st_requests s1 !! id
                 = (fun q => if is_accepted_request_of rideId riderId q
                             then set_request_status ReqCompleted q else q)
                     <$> st_requests (db a) !! id).
  { intros id. rewrite Hq. case_decide as Hin.
    - apply In_query_keys in Hin as (v & -> & Hv). simpl. by rewrite Hv.
    - destruct (st_requests (db a) !! id) as [v|] eqn:E; simpl; [|done].
      destruct (is_accepted_request_of rideId riderId v) eqn:Hv; [|done].
      exfalso. apply Hin. apply In_query_keys. eauto. }
  destruct (<[u_id (currentUser a) := wallet a + price]> (st_wallets (db a)) !! riderId)
    as [b|] eqn:E.
  - erewrite (updateDoc_present walletsC riderId) by (simpl; exact E).
    simpl. by rewrite Hp, Hr.
  - simpl. by rewrite Hp, Hr.
Qed.

(** C2. Let a request and its ride exist, let the driver's wallet document
    exist with the balance the driver's replica shows, and let the rider
    (a different user) have a wallet document.  Then [acceptRequest]
    followed by [completeRide(rideId, riderId, p)] sets the ride's status to
    completed, sets the request, and every accepted request of that rider
    on that ride, to completed, and leaves the driver's balance at
    [before + p] and the rider's at [before - p]. *)
Theorem accept_then_complete_settles (a : App) (requestId rideId riderId : string)
  (p : Z) (rq : RideRequest) (ride : Ride) (bd br : Z) :
  st_requests (db a) !! requestId = Some rq ->
  rq_rideId rq = Some rideId ->
  rq_riderId rq = riderId ->
  st_rides (db a) !! rideId = Some ride ->
  st_wallets (db a) !! u_id (currentUser a) = Some bd ->
  wallet a = bd ->
  st_wallets (db a) !! riderId = Some br ->
  u_id (currentUser a) <> riderId ->
  let accepted := acceptRequest requestId rideId a in
  let a' := completeRide rideId riderId p accepted in
  modalMessage a' = Some CompleteDone
  /\ r_status <$> st_rides (db a') !! rideId = Some RideCompleted
  /\ rq_status <$> st_requests (db accepted) !! requestId = Some ReqAccepted
  /\ rq_status <$> st_requests (db a') !! requestId = Some ReqCompleted
  /\ (forall id q, st_requests (db accepted) !! id = Some q ->
        is_accepted_request_of rideId riderId q = true ->
        st_requests (db a') !! id = Some (set_request_status ReqCompleted q))
  /\ st_wallets (db a') !! u_id (currentUser a) = Some (bd + p)
  /\ st_wallets (db a') !! riderId = Some (br - p).
Proof.
  intros Hrq Hrid Hrider Hride Hbd Hsync Hbr Hne accepted a'.
  assert (Hacc : accepted
                 = showMessage AcceptDone
                     (set_db
                        {| st_profiles := st_profiles (db a);
                           st_rides := <[rideId := set_ride_seats (r_availableSeats ride - 1) ride]>
                                         (st_rides (db a));
                           st_requests := <[requestId := set_request_status ReqAccepted rq]>
                                            (st_requests (db a));
                           st_wallets := st_wallets (db a) |} a))
    by (by apply acceptRequest_effect).
  destruct (completeRide_effect accepted rideId riderId p
              (set_ride_seats (r_availableSeats ride - 1) ride) bd)
    as (Hmsg & _ & Hrides & Hreqs & Hwallets).
  { rewrite Hacc. simpl. apply lookup_insert_eq. }
  { rewrite Hacc. simpl. exact Hbd. }
  fold a' in Hmsg, Hrides, Hreqs, Hwallets.
  assert (Hmatch : is_accepted_request_of rideId riderId
                     (set_request_status ReqAccepted rq) = true).
  { unfold is_accepted_request_of. simpl.
    rewrite Hrid, Hrider, String.eqb_refl, !bool_decide_eq_true_2; done. }
  assert (Hlook : st_requests (db accepted) !! requestId
                  = Some (set_request_status ReqAccepted rq)).
  { rewrite Hacc. simpl. apply lookup_insert_eq. }
  split; [exact Hmsg|].
  split; [rewrite Hrides, lookup_insert_eq; done|].
  split; [rewrite Hlook; done|].
  split; [rewrite Hreqs, Hlook; simpl; rewrite Hmatch; done|].
  split; [intros id q Hq Hm; rewrite Hreqs, Hq; simpl; rewrite Hm; done|].
  rewrite Hwallets. rewrite Hacc. simpl.
  rewrite lookup_insert_ne, Hbr by done.
  rewrite lookup_insert_ne, !lookup_insert_eq by done.
  rewrite Hsync. done.
Qed.

Lemma accept_then_complete_settles_witness :
  let accepted := acceptRequest "req-1" "ride-1" Sample.driver_app in
  let a' := completeRide "ride-1" "rider-1" 15 accepted in
  modalMessage a' = Some CompleteDone
  /\ r_status <$> st_rides (db a') !! "ride-1" = Some RideCompleted
  /\ rq_status <$> st_requests (db accepted) !! "req-1" = Some ReqAccepted
  /\ rq_status <$> st_requests (db a') !! "req-1" = Some ReqCompleted
  /\ (forall id q, st_requests (db accepted) !! id = Some q ->
        is_accepted_request_of "ride-1" "rider-1" q = true ->
        st_requests (db a') !! id = Some (set_request_status ReqCompleted q))
  /\ st_wallets (db a') !! "driver-1" = Some (100 + 15)
  /\ st_wallets (db a') !! "rider-1" = Some (10 - 15).
Proof.
  apply (accept_then_complete_settles Sample.driver_app "req-1" "ride-1" "rider-1" 15
           (Sample.pending_request "rider-1" "Riley") Sample.one_seat_ride 100 10).
  - vm_compute; reflexivity.
  - vm_compute; reflexivity.
  - vm_compute; reflexivity.
  - vm_compute; reflexivity.
  - vm_compute; reflexivity.
  - vm_compute; reflexivity.
  - vm_compute; reflexivity.
  - discriminate.
Defined.

(** C3. In [completeRide] the debit of the rider is conditional on the
    rider's wallet document: when the rider has none (and the ride and the
    driver's wallet exist, the driver's replica showing its balance), the
    driver's balance is still credited by [price], no wallet is created or
    debited for the rider, and the call reports success ('Ride marked as
    completed and payment processed!'), not an error. *)
Theorem completeRide_rider_without_wallet (a : App) (rideId riderId : string)
  (price : Z) (ride : Ride) (bd : Z) :
  st_rides (db a) !! rideId = Some ride ->
  st_wallets (db a) !! u_id (currentUser a) = Some bd ->
  wallet a = bd ->
  st_wallets (db a) !! riderId = None ->
  let a' := completeRide rideId riderId price a in
  st_wallets (db a') !! u_id (currentUser a) = Some (bd + price)
  /\ st_wallets (db a') !! riderId = None
  /\ (forall u, u <> u_id (currentUser a) ->
        st_wallets (db a') !! u = st_wallets (db a) !! u)
  /\ modalMessage a' = Some CompleteDone.
Proof.
  intros Hride Hbd Hsync Hnone a'.
  destruct (completeRide_effect a rideId riderId price ride bd Hride Hbd)
    as (Hmsg & _ & _ & _ & Hwallets).
  fold a' in Hmsg, Hwallets.
  assert (Hne : u_id (currentUser a) <> riderId) by congruence.
  simpl in Hwallets. rewrite lookup_insert_ne, Hnone in Hwallets by done.
  rewrite Hwallets, Hsync, lookup_insert_eq, lookup_insert_ne by done.
  repeat split; try done.
  intros u Hu. by rewrite lookup_insert_ne.
Qed.

Lemma completeRide_rider_without_wallet_witness :
  let a' := completeRide "ride-1" "rider-2" 15 Sample.driver_app in
  st_wallets (db a') !! "driver-1" = Some (100 + 15)
  /\ st_wallets (db a') !! "rider-2" = None
  /\ (forall u, u <> "driver-1" ->
        st_wallets (db a') !! u = st_wallets (db Sample.driver_app) !! u)
  /\ modalMessage a' = Some CompleteDone.
Proof.
  apply (completeRide_rider_without_wallet Sample.driver_app "ride-1" "rider-2" 15
           Sample.one_seat_ride 100).
  - vm_compute; reflexivity.
  - vm_compute; reflexivity.
  - vm_compute; reflexivity.
  - vm_compute; reflexivity.
Defined.

(** ** Requesting a ride *)

Lemma onSnapshot_replicas (a : App) :
  currentUser (onSnapshot a) = currentUser a
  /\ rides (onSnapshot a) = map_to_list (st_rides (db a))
  /\ rideRequests (onSnapshot a) = map_to_list (st_requests (db a))
  /\ st_requests (db (onSnapshot a)) = st_requests (db a)
  /\ st_rides (db (onSnapshot a)) = st_rides (db a).
Proof.
  unfold onSnapshot. by destruct (st_wallets (db a) !! userId a).
Qed.

Lemma find_map_to_list {V} (m : gmap string V) (k : string) (v : V) :
  m !! k = Some v ->
  List.find (fun r => String.eqb (fst r) k) (map_to_list m) = Some (k, v).
Proof.
  intros Hm. destruct (List.find _ _) as [[k' v']|] eqn:E.
  - apply find_some in E as (Hin & Hk). simpl in Hk.
    apply String.eqb_eq in Hk as ->.
    apply list_elem_of_In, elem_of_map_to_list in Hin. congruence.
  - assert (Hin : In (k, v) (map_to_list m))
      by (by apply list_elem_of_In, elem_of_map_to_list).
    pose proof (find_none _ _ E (k, v) Hin) as Hno. simpl in Hno.
    by rewrite String.eqb_refl in Hno.
Qed.

Lemma is_existing_request_true (rideId riderId : string) (req : RideRequest) :
  is_existing_request rideId riderId req = true <->
  rq_rideId req = Some rideId /\ rq_riderId req = riderId
  /\ (rq_status req = ReqPending \/ rq_status req = ReqAccepted).
Proof.
  unfold is_existing_request.
  rewrite !andb_true_iff, orb_true_iff, !bool_decide_eq_true, String.eqb_eq. tauto.
Qed.

(** The guard of [requestRide]: with a pending or accepted request of the
    caller for the ride in the request replica, nothing is written and the
    call ends in one of its four error notices. *)
Lemma requestRide_guard (a : App) (rideId now : string) (id : string) (req : RideRequest) :
  In (id, req) (rideRequests a) ->
  is_existing_request rideId (u_id (currentUser a)) req = true ->
  let a' := requestRide rideId now a in
  db a' = db a
  /\ (modalMessage a' = Some ReqOnlyRiders \/ modalMessage a' = Some ReqRideNotFound
      \/ modalMessage a' = Some ReqNoSeats \/ modalMessage a' = Some ReqAlreadyExists)
  /\ (u_userType (currentUser a) = "rider" ->
      forall rid ride,
        List.find (fun r => String.eqb (fst r) rideId) (rides a) = Some (rid, ride) ->
        0 < r_availableSeats ride ->
        modalMessage a' = Some ReqAlreadyExists)
  /\ (u_userType (currentUser a) = "rider" ->
      modalMessage a' = Some ReqRideNotFound
      \/ modalMessage a' = Some ReqNoSeats \/ modalMessage a' = Some ReqAlreadyExists).
Proof.
  intros Hin Hex. unfold requestRide.
  destruct (String.eqb (u_userType (currentUser a)) "rider") eqn:Hty; simpl.
  2: { apply String.eqb_neq in Hty. repeat split; auto; intros; done. }
  destruct (List.find _ (rides a)) as [[rid ride]|] eqn:Hfind.
  2: { repeat split; auto. intros _ ? ? [=]. }
  destruct (r_availableSeats ride <=? 0) eqn:Hseats.
  { apply Z.leb_le in Hseats. repeat split; auto. intros _ ? ? [= <- <-]. lia. }
  destruct (List.find _ (rideRequests a)) as [x|] eqn:Hreq.
  - repeat split; auto.
  - exfalso. pose proof (find_none _ _ Hreq (id, req) Hin) as Hno.
    simpl in Hno. congruence.
Qed.

(** C4. [requestRide] is idempotent against duplicate requests.  If the
    caller already holds a request for the ride with status pending or
    accepted (as the request replica shows it), [requestRide] creates no
    request and ends in an error notice, which is 'You already have a
    pending or accepted request for this ride.' when the caller is a rider
    and the ride is listed with a free seat.  Hence calling [requestRide]
    twice, the replicas being refreshed in between and the first request
    still pending, yields exactly one new request, with status pending,
    and an error on the second call. *)
Theorem requestRide_idempotent (a : App) (rideId now now' : string) :
  (forall id req,
     In (id, req) (rideRequests a) ->
     rq_rideId req = Some rideId ->
     rq_riderId req = u_id (currentUser a) ->
     rq_status req = ReqPending \/ rq_status req = ReqAccepted ->
     let a' := requestRide rideId now a in
     db a' = db a
     /\ (modalMessage a' = Some ReqOnlyRiders \/ modalMessage a' = Some ReqRideNotFound
         \/ modalMessage a' = Some ReqNoSeats \/ modalMessage a' = Some ReqAlreadyExists)
     /\ (u_userType (currentUser a) = "rider" ->
         forall rid ride,
           List.find (fun r => String.eqb (fst r) rideId) (rides a) = Some (rid, ride) ->
           0 < r_availableSeats ride ->
           modalMessage a' = Some ReqAlreadyExists))
  /\ (forall rid ride,
        u_userType (currentUser a) = "rider" ->
        List.find (fun r => String.eqb (fst r) rideId) (rides a) = Some (rid, ride) ->
        0 < r_availableSeats ride ->
        (forall id req, In (id, req) (rideRequests a) ->
           is_existing_request rideId (u_id (currentUser a)) req = false) ->
        let a1 := requestRide rideId now a in
        let a2 := requestRide rideId now' (onSnapshot a1) in
        modalMessage a1 = Some ReqSent
        /\ (exists newId,
              st_requests (db a) !! newId = None
              /\ st_requests (db a1)
                 = <[newId := newRequest rideId ride now (currentUser a)]>
                     (st_requests (db a)))
        /\ st_requests (db a2) = st_requests (db a1)
        /\ size (st_requests (db a2)) = S (size (st_requests (db a)))
        /\ (modalMessage a2 = Some ReqRideNotFound \/ modalMessage a2 = Some ReqNoSeats
            \/ modalMessage a2 = Some ReqAlreadyExists)
        /\ (forall r, st_rides (db a) !! rideId = Some r -> 0 < r_availableSeats r ->
              modalMessage a2 = Some ReqAlreadyExists)).
Proof.
  split.
  - intros id req Hin Hride Hrider Hstatus.
    destruct (requestRide_guard a rideId now id req Hin) as (H1 & H2 & H3 & _);
      [apply is_existing_request_true; auto | auto].
  - intros rid ride Hty Hfind Hseats Hfree a1 a2.
    assert (Hfresh : st_requests (db a) !! fresh (dom (st_requests (db a))) = None).
    { apply not_elem_of_dom, is_fresh. }
    assert (Ha1 : a1 = showMessage ReqSent
                    (set_db (col_set requestsC
                               (<[fresh (dom (st_requests (db a)))
                                  := newRequest rideId ride now (currentUser a)]>
                                  (st_requests (db a))) (db a)) a)).
    { subst a1. unfold requestRide. rewrite Hty, Hfind. simpl.
      destruct (r_availableSeats ride <=? 0) eqn:E; [apply Z.leb_le in E; lia|].
      destruct (List.find _ (rideRequests a)) as [[id req]|] eqn:Hreq.
      - apply find_some in Hreq as (Hin & Hex). simpl in Hex.
        rewrite (Hfree id req Hin) in Hex. done.
      - reflexivity. }
    destruct (onSnapshot_replicas a1) as (Hu & Hrides & Hreqs & Hsreq & Hsrides).
    assert (Hnew : In (fresh (dom (st_requests (db a))),
                       newRequest rideId ride now (currentUser a))
                      (rideRequests (onSnapshot a1))).
    { rewrite Hreqs, Ha1. simpl.
      apply list_elem_of_In, elem_of_map_to_list, lookup_insert_eq. }
    destruct (requestRide_guard (onSnapshot a1) rideId now' _ _ Hnew)
      as (Hdb & _ & Hexact & Hmsg).
    { rewrite Hu, Ha1. simpl. apply is_existing_request_true. simpl. auto. }
    fold a2 in Hdb, Hmsg, Hexact.
    assert (Hty2 : u_userType (currentUser (onSnapshot a1)) = "rider").
    { rewrite Hu, Ha1. exact Hty. }
    split; [by rewrite Ha1|].
    split; [exists (fresh (dom (st_requests (db a)))); split; [done | by rewrite Ha1]|].
    split; [by rewrite Hdb, Hsreq|].
    split.
    { rewrite Hdb, Hsreq, Ha1. simpl. by apply map_size_insert_None. }
    split; [by apply Hmsg|].
    intros r Hr Hpos.
    apply (Hexact Hty2 rideId r); [|done].
    rewrite Hrides. apply find_map_to_list. rewrite Ha1. simpl. exact Hr.
Qed.

Lemma requestRide_idempotent_witness :
  (let a' := requestRide "ride-1" "2025-05-31T10:00:00.000Z" Sample.rider1_app in
   db a' = db Sample.rider1_app /\ modalMessage a' = Some ReqAlreadyExists)
  /\ (let a1 := requestRide "ride-1" "2025-05-31T10:00:00.000Z" Sample.rider3_app in
      let a2 := requestRide "ride-1" "2025-05-31T10:00:05.000Z" (onSnapshot a1) in
      modalMessage a1 = Some ReqSent
      /\ size (st_requests (db a2)) = S (size (st_requests (db Sample.rider3_app)))
      /\ modalMessage a2 = Some ReqAlreadyExists).
Proof.
  pose proof (requestRide_idempotent Sample.rider1_app "ride-1"
                "2025-05-31T10:00:00.000Z" "2025-05-31T10:00:05.000Z") as [Hguard _].
  pose proof (requestRide_idempotent Sample.rider3_app "ride-1"
                "2025-05-31T10:00:00.000Z" "2025-05-31T10:00:05.000Z") as [_ Htwice].
  assert (Hreplica : rideRequests Sample.rider3_app
                     = [("req-1", Sample.pending_request "rider-1" "Riley");
                        ("req-2", Sample.pending_request "rider-2" "Robin")])
    by (vm_compute; reflexivity).
  split.
  - assert (Hin : In ("req-1", Sample.pending_request "rider-1" "Riley")
                     (rideRequests Sample.rider1_app)) by (vm_compute; auto).
    assert (Hrider : rq_riderId (Sample.pending_request "rider-1" "Riley")
                     = u_id (currentUser Sample.rider1_app)) by (vm_compute; reflexivity).
    specialize (Hguard "req-1" (Sample.pending_request "rider-1" "Riley")
                  Hin eq_refl Hrider (or_introl eq_refl)).
    destruct Hguard as (Hdb & _ & Hmsg).
    split; [exact Hdb|].
    apply (Hmsg ltac:(vm_compute; reflexivity) "ride-1" Sample.one_seat_ride);
      vm_compute; reflexivity.
  - assert (Hfree : forall id req, In (id, req) (rideRequests Sample.rider3_app) ->
                      is_existing_request "ride-1" (u_id (currentUser Sample.rider3_app)) req
                      = false).
    { intros id req Hin. rewrite Hreplica in Hin.
      destruct Hin as [[= <- <-]|[[= <- <-]|[]]]; vm_compute; reflexivity. }
    assert (Hseat : 0 < r_availableSeats Sample.one_seat_ride) by (vm_compute; reflexivity).
    assert (Hty : u_userType (currentUser Sample.rider3_app) = "rider")
      by (vm_compute; reflexivity).
    assert (Hfind : List.find (fun r => String.eqb (fst r) "ride-1")
                      (rides Sample.rider3_app)
                    = Some ("ride-1", Sample.one_seat_ride)) by (vm_compute; reflexivity).
    specialize (Htwice "ride-1" Sample.one_seat_ride Hty Hfind Hseat Hfree).
    destruct Htwice as (Hsent & _ & _ & Hsize & _ & Hmsg).
    split; [exact Hsent|]. split; [exact Hsize|].
    apply (Hmsg Sample.one_seat_ride); vm_compute; reflexivity.
Defined.

(** The guard reads the replica, not the store: a second call issued before
    the snapshot with the first request has been delivered passes it. *)
Remark requestRide_before_snapshot :
  let a1 := requestRide "ride-1" "2025-05-31T10:00:00.000Z" Sample.rider3_app in
  let a2 := requestRide "ride-1" "2025-05-31T10:00:00.100Z" a1 in
  modalMessage a2 = Some ReqSent
  /\ size (st_requests (db a2)) = S (S (size (st_requests (db Sample.rider3_app)))).
Proof. vm_compute. done. Qed.

(** ** Withdrawal *)

(** C5, as the code has it.  With a balance [b] shown by the replica:
    [withdraw(a)] with [a <= 0] (or NaN) fails with 'Please enter a valid
    amount.' and changes nothing; with [a > 0] and [a > b] it fails with
    'Insufficient balance.' and changes nothing; with [0 < a <= b], the
    wallet document holding [b], it stores [b - a]. *)
Theorem handleWithdrawFunds_spec (a : App) (w b : Z) :
  wallet a = b ->
  let a' := handleWithdrawFunds (Some w) a in
  (w <= 0 ->
     modalMessage a' = Some WalletInvalidAmount /\ db a' = db a /\ wallet a' = b)
  /\ (0 < w -> w > b ->
     modalMessage a' = Some WalletInsufficient /\ db a' = db a /\ wallet a' = b)
  /\ (0 < w <= b -> st_wallets (db a) !! userId a = Some b ->
     modalMessage a' = Some (WithdrawDone w)
     /\ st_wallets (db a') = <[userId a := b - w]> (st_wallets (db a)))
  /\ (let nan := handleWithdrawFunds None a in
      modalMessage nan = Some WalletInvalidAmount /\ db nan = db a /\ wallet nan = b).
Proof.
  intros Hb a'. subst a'. unfold handleWithdrawFunds.
  split; [|split; [|split]].
  - intros Hw. by rewrite (proj2 (Z.leb_le w 0) Hw).
  - intros Hpos Hgt.
    rewrite (proj2 (Z.leb_gt w 0) Hpos), (proj2 (Z.ltb_lt (wallet a) w)) by lia.
    done.
  - intros [Hpos Hle] Hdoc.
    rewrite (proj2 (Z.leb_gt w 0) Hpos), (proj2 (Z.ltb_ge (wallet a) w)) by lia.
    fire. rewrite (updateDoc_present walletsC (userId a) _ (db a) b Hdoc). simpl.
    by rewrite Hb.
  - done.
Qed.

Lemma handleWithdrawFunds_spec_witness :
  let a' := handleWithdrawFunds (Some 40) Sample.driver_app in
  modalMessage a' = Some (WithdrawDone 40)
  /\ st_wallets (db a') = <["driver-1" := 100 - 40]> (st_wallets (db Sample.driver_app)).
Proof.
  apply (handleWithdrawFunds_spec Sample.driver_app 40 100).
  - vm_compute; reflexivity.
  - lia.
  - vm_compute; reflexivity.
Defined.

(** C5, as the specification words it, fails: it promises 'Insufficient
    balance.' whenever [a > b].  The rider who paid 15 from a balance of 10
    has [b = -5]; withdrawing [a = 0 > b] is answered 'Please enter a valid
    amount.' *)
Lemma withdraw_insufficient_counterexample :
  wallet Sample.overdrawn_app = -5
  /\ st_wallets (db Sample.overdrawn_app) !! "rider-1" = Some (-5)
  /\ 0 > wallet Sample.overdrawn_app
  /\ modalMessage (handleWithdrawFunds (Some 0) Sample.overdrawn_app)
     = Some WalletInvalidAmount
  /\ modalMessage (handleWithdrawFunds (Some 0) Sample.overdrawn_app)
     <> Some WalletInsufficient.
Proof. vm_compute. repeat split; discriminate. Qed.

(** ** Posting a ride *)

(** C8, as the code has it.  [handlePostRide] first checks the fields and
    then the caller.  It fails with 'Please fill in all required ride
    details.' when [from], [to] or [startTime] is empty or [availableSeats]
    or [pricePerSeat] is NaN or 0, whoever the caller is.  With the three
    texts non-empty, [availableSeats >= 1] and [pricePerSeat > 0], it fails
    with 'Only drivers can post rides.' when the caller is not a driver,
    and for a driver it adds one ride under an unused identifier, with
    status active and route [[from, ...non-blank stops in order, to]].
    Both failures leave the store as it was. *)
Theorem handlePostRide_spec (rideData : RideData) (now : string) (a : App) :
  let a' := handlePostRide rideData now a in
  (rd_from rideData = "" \/ rd_to rideData = "" \/ rd_startTime rideData = ""
   \/ rd_availableSeats rideData = None \/ rd_availableSeats rideData = Some 0
   \/ rd_pricePerSeat rideData = None \/ rd_pricePerSeat rideData = Some 0 ->
   modalMessage a' = Some PostFillRequired /\ db a' = db a)
  /\ (forall seats price,
        rd_from rideData <> "" -> rd_to rideData <> "" -> rd_startTime rideData <> "" ->
        rd_availableSeats rideData = Some seats -> 1 <= seats ->
        rd_pricePerSeat rideData = Some price -> 0 < price ->
        (u_userType (currentUser a) <> "driver" ->
           modalMessage a' = Some PostOnlyDrivers /\ db a' = db a)
        /\ (u_userType (currentUser a) = "driver" ->
            exists id ride,
              st_rides (db a) !! id = None
              /\ st_rides (db a') = <[id := ride]> (st_rides (db a))
              /\ st_profiles (db a') = st_profiles (db a)
              /\ st_requests (db a') = st_requests (db a)
              /\ st_wallets (db a') = st_wallets (db a)
              /\ r_status ride = RideActive
              /\ r_route ride
                 = Arr (rd_from rideData
                          :: List.filter nonblank (rd_route rideData) ++ [rd_to rideData])
              /\ r_from ride = rd_from rideData /\ r_to ride = rd_to rideData
              /\ r_startTime ride = rd_startTime rideData
              /\ r_availableSeats ride = seats /\ r_pricePerSeat ride = price
              /\ r_driverId ride = u_id (currentUser a)
              /\ modalMessage a' = Some PostSuccessful)).
Proof.
  intros a'. subst a'. unfold handlePostRide. split.
  - intros Hmiss.
    assert (Hguard : negb (Js.truthy (rd_from rideData)) || negb (Js.truthy (rd_to rideData))
                     || negb (Js.truthy (rd_startTime rideData))
                     || negb (Js.truthy_num (rd_availableSeats rideData))
                     || negb (Js.truthy_num (rd_pricePerSeat rideData)) = true).
    { rewrite !orb_true_iff.
      destruct Hmiss as [H|[H|[H|[H|[H|[H|H]]]]]]; rewrite H; simpl; tauto. }
    by rewrite Hguard.
  - intros seats price Hfrom Hto Hstart Hseats Hs1 Hprice Hp1.
    apply truthy_true in Hfrom, Hto, Hstart.
    rewrite Hfrom, Hto, Hstart, Hseats, Hprice. simpl.
    rewrite (proj2 (Z.eqb_neq seats 0)), (proj2 (Z.eqb_neq price 0)) by lia. simpl.
    split.
    + intros Hty. apply String.eqb_neq in Hty. by rewrite Hty.
    + intros Hty. rewrite Hty. simpl. fire.
      exists (fresh (dom (st_rides (db a)))), (newRide rideData now (currentUser a)).
      split; [apply not_elem_of_dom, is_fresh|].
      simpl. rewrite Hseats, Hprice. done.
Qed.

Lemma handlePostRide_spec_witness :
  let a' := handlePostRide Sample.ride_form "2025-05-30T10:00:00.000Z" Sample.driver_app in
  exists id ride,
    st_rides (db Sample.driver_app) !! id = None
    /\ st_rides (db a') = <[id := ride]> (st_rides (db Sample.driver_app))
    /\ r_status ride = RideActive
    /\ r_route ride = Arr ["Toronto Downtown"; "Etobicoke"; "Mississauga"]
    /\ modalMessage a' = Some PostSuccessful.
Proof.
  destruct (handlePostRide_spec Sample.ride_form "2025-05-30T10:00:00.000Z"
              Sample.driver_app) as [_ H].
  assert (Hty : u_userType (currentUser Sample.driver_app) = "driver")
    by (vm_compute; reflexivity).
  assert (Hnonempty : "Toronto Downtown" <> "" /\ "Mississauga" <> ""
                      /\ "2025-06-01T08:00" <> "") by (repeat split; discriminate).
  destruct Hnonempty as (Hfrom & Hto & Hstart).
  destruct (H 2 15 Hfrom Hto Hstart eq_refl ltac:(lia) eq_refl ltac:(lia)) as [_ Hdriver].
  destruct (Hdriver Hty)
    as (id & ride & Hnew & Hrides & _ & _ & _ & Hst & Hroute & _ & _ & _ & _ & _ & _ & Hmsg).
  exists id, ride.
  split; [exact Hnew|]. split; [exact Hrides|]. split; [exact Hst|].
  split; [|exact Hmsg].
  rewrite Hroute. vm_compute. reflexivity.
Defined.

(** C8, as the specification words it, fails: it promises the permission
    error whenever the caller is not a driver.  A rider submitting the form
    with the destination left empty is told 'Please fill in all required
    ride details.' *)
Lemma postRide_permission_counterexample :
  u_userType (currentUser Sample.rider1_app) <> "driver"
  /\ modalMessage (handlePostRide Sample.ride_form_no_to "2025-05-30T10:00:00.000Z"
                     Sample.rider1_app) = Some PostFillRequired
  /\ modalMessage (handlePostRide Sample.ride_form_no_to "2025-05-30T10:00:00.000Z"
                     Sample.rider1_app) <> Some PostOnlyDrivers.
Proof. vm_compute. repeat split; discriminate. Qed.

(** The field check of [handlePostRide] is a truthiness test: a negative
    seat count passes it and is stored. *)
Remark handlePostRide_negative_seats :
  let a' := handlePostRide Sample.ride_form_negative "2025-05-30T10:00:00.000Z"
              Sample.driver_app in
  modalMessage a' = Some PostSuccessful
  /\ r_availableSeats <$> st_rides (db a') !! fresh (dom (st_rides (db Sample.driver_app)))
     = Some (-3).
Proof. vm_compute. done. Qed.

(** ** Registration *)

Lemma reg_valid_guards (regData : RegData) :
  reg_valid regData <->
  negb (Js.truthy (reg_name regData)) || negb (Js.truthy (reg_email regData))
  || negb (Js.truthy (reg_phone regData)) || negb (Js.truthy (reg_userType regData)) = false
  /\ String.eqb (reg_userType regData) "driver"
     && (negb (Js.truthy (v_type (reg_vehicle regData)))
         || negb (Js.truthy (v_color (reg_vehicle regData)))
         || negb (Js.truthy (v_plate (reg_vehicle regData)))
         || negb (reg_licenseUploaded regData)) = false
  /\ String.eqb (reg_userType regData) "rider" && negb (reg_idUploaded regData) = false.
Proof.
  unfold reg_valid.
  rewrite !andb_false_iff, !orb_false_iff, !negb_false_iff, !truthy_true.
  rewrite !String.eqb_neq.
  destruct (decide (reg_userType regData = "driver")) as [Hd|Hd];
    destruct (decide (reg_userType regData = "rider")) as [Hr|Hr];
    try congruence; intuition congruence.
Qed.

(** C9. [handleRegistration] requires name, email, phone and role to be
    non-empty, for the role driver also the vehicle's type, color and plate
    and the license flag, for the role rider the ID flag.  When the form
    meets this, the profile is stored under the caller's identifier with
    [verificationStatus = pending] (and nothing else is written); when it
    does not, the call ends in a validation notice and the store is left
    untouched. *)
Theorem handleRegistration_spec (regData : RegData) (now : string) (a : App) :
  let a' := handleRegistration regData now a in
  (reg_valid regData ->
     st_profiles (db a') = <[userId a := newProfile regData now]> (st_profiles (db a))
     /\ p_verificationStatus (newProfile regData now) = VerPending
     /\ p_name (newProfile regData now) = reg_name regData
     /\ p_email (newProfile regData now) = reg_email regData
     /\ p_phone (newProfile regData now) = reg_phone regData
     /\ p_userType (newProfile regData now) = reg_userType regData
     /\ st_rides (db a') = st_rides (db a)
     /\ st_requests (db a') = st_requests (db a)
     /\ st_wallets (db a') = st_wallets (db a)
     /\ modalMessage a' = Some RegSuccessful
     /\ currentView a' = "home")
  /\ (~ reg_valid regData ->
     db a' = db a
     /\ (modalMessage a' = Some RegFillRequired
         \/ modalMessage a' = Some RegVehicleDetails
         \/ modalMessage a' = Some RegUploadId)).
Proof.
  intros a'. subst a'. unfold handleRegistration.
  rewrite (reg_valid_guards regData).
  destruct (negb (Js.truthy (reg_name regData)) || _ || _ || _) eqn:G1.
  { split; [intros (? & _); done | intros _; auto]. }
  destruct (String.eqb (reg_userType regData) "driver" && _) eqn:G2.
  { split; [intros (_ & ? & _); done | intros _; auto]. }
  destruct (String.eqb (reg_userType regData) "rider" && _) eqn:G3.
  { split; [intros (_ & _ & ?); done | intros _; auto]. }
  split; [intros _ | intros H; exfalso; by apply H].
  fire. repeat split.
Qed.

Lemma handleRegistration_spec_witness :
  (let a' := handleRegistration Sample.driver_form "2025-05-29T12:00:00.000Z"
               Sample.driver_app in
   st_profiles (db a') !! "driver-1"
   = Some (newProfile Sample.driver_form "2025-05-29T12:00:00.000Z")
   /\ p_verificationStatus (newProfile Sample.driver_form "2025-05-29T12:00:00.000Z")
      = VerPending
   /\ modalMessage a' = Some RegSuccessful)
  /\ (let a' := handleRegistration Sample.rider_form_no_id "2025-05-29T12:00:00.000Z"
                  Sample.rider1_app in
      db a' = db Sample.rider1_app /\ modalMessage a' = Some RegUploadId).
Proof.
  split.
  - destruct (handleRegistration_spec Sample.driver_form "2025-05-29T12:00:00.000Z"
                Sample.driver_app) as [Hok _].
    destruct Hok as (Hprof & Hver & _ & _ & _ & _ & _ & _ & _ & Hmsg & _).
    { repeat split; try discriminate; reflexivity. }
    split; [|split; [exact Hver | exact Hmsg]].
    rewrite Hprof.
    assert (Hid : userId Sample.driver_app = "driver-1") by (vm_compute; reflexivity).
    rewrite Hid. apply lookup_insert_eq.
  - destruct (handleRegistration_spec Sample.rider_form_no_id "2025-05-29T12:00:00.000Z"
                Sample.rider1_app) as [_ Hbad].
    destruct Hbad as (Hdb & _).
    { intros (_ & _ & _ & _ & _ & Hid). specialize (Hid eq_refl). discriminate Hid. }
    split; [exact Hdb|]. vm_compute. reflexivity.
Defined.

(** * Further properties *)

(** ** Accepting a request: missing documents and frame *)

(** [acceptRequest] for a request identifier that is not in the store
    writes nothing, so the ride keeps its seats, and reports 'Failed to
    accept request.' *)
Theorem acceptRequest_missing_request (a : App) (requestId rideId : string) :
  st_requests (db a) !! requestId = None ->
  let a' := acceptRequest requestId rideId a in
  db a' = db a /\ modalMessage a' = Some AcceptFailed.
Proof.
  intros Hnone. unfold acceptRequest. fire.
  by rewrite (updateDoc_absent requestsC requestId _ (db a) Hnone).
Qed.

Lemma acceptRequest_missing_request_witness :
  let a' := acceptRequest "req-9" "ride-1" Sample.driver_app in
  db a' = db Sample.driver_app /\ modalMessage a' = Some AcceptFailed.
Proof.
  apply (acceptRequest_missing_request Sample.driver_app "req-9" "ride-1").
  vm_compute; reflexivity.
Defined.

(** [acceptRequest] for an existing request and a ride identifier that is
    not in the store still accepts the request and reports success; no ride
    is created or changed. *)
Theorem acceptRequest_missing_ride (a : App) (requestId rideId : string) (rq : RideRequest) :
  st_requests (db a) !! requestId = Some rq ->
  st_rides (db a) !! rideId = None ->
  let a' := acceptRequest requestId rideId a in
  modalMessage a' = Some AcceptDone
  /\ st_requests (db a') = <[requestId := set_request_status ReqAccepted rq]> (st_requests (db a))
  /\ st_rides (db a') = st_rides (db a)
  /\ st_wallets (db a') = st_wallets (db a)
  /\ st_profiles (db a') = st_profiles (db a).
Proof.
  intros Hrq Hride. unfold acceptRequest. fire.
  rewrite (updateDoc_present requestsC requestId _ (db a) rq Hrq). simpl.
  by rewrite Hride.
Qed.

Lemma acceptRequest_missing_ride_witness :
  let a' := acceptRequest "req-1" "ride-9" Sample.driver_app in
  modalMessage a' = Some AcceptDone
  /\ st_requests (db a')
     = <["req-1" := set_request_status ReqAccepted (Sample.pending_request "rider-1" "Riley")]>
         (st_requests (db Sample.driver_app))
  /\ st_rides (db a') = st_rides (db Sample.driver_app)
  /\ st_wallets (db a') = st_wallets (db Sample.driver_app)
  /\ st_profiles (db a') = st_profiles (db Sample.driver_app).
Proof.
  apply (acceptRequest_missing_ride Sample.driver_app "req-1" "ride-9"
           (Sample.pending_request "rider-1" "Riley")).
  - vm_compute; reflexivity.
  - vm_compute; reflexivity.
Defined.

(** Whatever the store holds, [acceptRequest] moves no money and touches
    no profile, no request but the one named and no ride but the one named;
    the ride named keeps every field but its seat count, and the request
    named every field but its status. *)
Theorem acceptRequest_frame (a : App) (requestId rideId : string) :
  let a' := acceptRequest requestId rideId a in
  st_wallets (db a') = st_wallets (db a)
  /\ st_profiles (db a') = st_profiles (db a)
  /\ (forall id, id <> requestId -> st_requests (db a') !! id = st_requests (db a) !! id)
  /\ (forall id, id <> rideId -> st_rides (db a') !! id = st_rides (db a) !! id)
  /\ (forall ride', st_rides (db a') !! rideId = Some ride' ->
        exists ride, st_rides (db a) !! rideId = Some ride
                     /\ set_ride_seats (r_availableSeats ride) ride' = ride)
  /\ (forall rq', st_requests (db a') !! requestId = Some rq' ->
        exists rq, st_requests (db a) !! requestId = Some rq
                   /\ set_request_status (rq_status rq) rq' = rq).
Proof.
  intros a'. subst a'. unfold acceptRequest. fire.
  destruct (st_requests (db a) !! requestId) as [rq|] eqn:Hrq.
  - rewrite (updateDoc_present requestsC requestId _ (db a) rq Hrq). simpl.
    destruct (st_rides (db a) !! rideId) as [ride|] eqn:Hride.
    + erewrite (updateDoc_present ridesC rideId) by exact Hride. simpl.
      repeat split.
      * intros id Hid. by rewrite lookup_insert_ne.
      * intros id Hid. by rewrite lookup_insert_ne.
      * intros ride'. rewrite lookup_insert_eq. intros [= <-].
        exists ride. split; [done|]. by destruct ride.
      * intros rq'. rewrite lookup_insert_eq. intros [= <-].
        exists rq. split; [done|]. by destruct rq.
    + simpl. repeat split.
      * intros id Hid. by rewrite lookup_insert_ne.
      * intros ride'. by rewrite Hride.
      * intros rq'. rewrite lookup_insert_eq. intros [= <-].
        exists rq. split; [done|]. by destruct rq.
  - rewrite (updateDoc_absent requestsC requestId _ (db a) Hrq). simpl.
    repeat split.
    + intros ride' H. exists ride'. split; [done|]. by destruct ride'.
    + intros rq'. by rewrite Hrq.
Qed.

Lemma acceptRequest_frame_witness :
  st_requests (db (acceptRequest "req-1" "ride-1" Sample.driver_app)) !! "req-2"
  = st_requests (db Sample.driver_app) !! "req-2".
Proof.
  destruct (acceptRequest_frame Sample.driver_app "req-1" "ride-1") as (_ & _ & H & _).
  apply H. discriminate.
Defined.

(** ** Completing a ride: missing documents, conservation, repetition *)

(** [completeRide] for a ride identifier that is not in the store writes
    nothing at all and reports 'Failed to complete ride.' *)
Theorem completeRide_missing_ride (a : App) (rideId riderId : string) (price : Z) :
  st_rides (db a) !! rideId = None ->
  let a' := completeRide rideId riderId price a in
  db a' = db a /\ modalMessage a' = Some CompleteFailed.
Proof.
  intros Hnone. unfold completeRide. fire.
  by rewrite (updateDoc_absent ridesC rideId _ (db a) Hnone).
Qed.

Lemma completeRide_missing_ride_witness :
  let a' := completeRide "ride-9" "rider-1" 15 Sample.driver_app in
  db a' = db Sample.driver_app /\ modalMessage a' = Some CompleteFailed.
Proof.
  apply (completeRide_missing_ride Sample.driver_app "ride-9" "rider-1" 15).
  vm_compute; reflexivity.
Defined.

(** [completeRide] is not atomic.  When the ride exists and the driver has
    no wallet document, the ride is already marked completed and the
    rider's accepted requests are already set to completed when the credit
    is rejected: the call reports 'Failed to complete ride.' with these
    writes in place and no balance changed. *)
Theorem completeRide_missing_driver_wallet (a : App) (rideId riderId : string)
  (price : Z) (ride : Ride) :
  st_rides (db a) !! rideId = Some ride ->
  st_wallets (db a) !! u_id (currentUser a) = None ->
  let a' := completeRide rideId riderId price a in
  modalMessage a' = Some CompleteFailed
  /\ st_rides (db a') = <[rideId := set_ride_status RideCompleted ride]> (st_rides (db a))
  /\ (forall id, st_requests (db a') !! id
                 = (fun q => if is_accepted_request_of rideId riderId q
                             then set_request_status ReqCompleted q else q)
                     <$> st_requests (db a) !! id)
  /\ st_wallets (db a') = st_wallets (db a).
Proof.
  intros Hride Hwallet. unfold completeRide. fire.
  rewrite (updateDoc_present ridesC rideId _ (db a) ride Hride). simpl.
  unfold getDocs, forEach_async. simpl.
  match goal with |- context [fold_left ?g ?l ?s0] =>
    destruct (forEach_requests_fst (set_request_status ReqCompleted) l s0)
      as (Hp & Hr & Hw & Hq); [by intros []|];
    set (s1 := fold_left g l s0) in *
  end.
  simpl in Hp, Hr, Hw, Hq.
  rewrite (updateDoc_absent walletsC _ _ s1) by (simpl; rewrite Hw; exact Hwallet).
  simpl. rewrite Hr, Hw. repeat split.
  intros id. rewrite Hq. case_decide as Hin.
  - apply In_query_keys in Hin as (v & -> & Hv). simpl. by rewrite Hv.
  - destruct (st_requests (db a) !! id) as [v|] eqn:E; simpl; [|done].
    destruct (is_accepted_request_of rideId riderId v) eqn:Hv; [|done].
    exfalso. apply Hin. apply In_query_keys. eauto.
Qed.

Lemma completeRide_missing_driver_wallet_witness :
  let a' := completeRide "ride-1" "rider-1" 15 Sample2.walletless_driver_app in
  modalMessage a' = Some CompleteFailed
  /\ st_rides (db a')
     = <["ride-1" := set_ride_status RideCompleted Sample.one_seat_ride]>
         (st_rides (db Sample2.walletless_driver_app))
  /\ st_wallets (db a') = st_wallets (db Sample2.walletless_driver_app).
Proof.
  assert (Hride : st_rides (db Sample2.walletless_driver_app) !! "ride-1"
                  = Some Sample.one_seat_ride) by (vm_compute; reflexivity).
  assert (Hnone : st_wallets (db Sample2.walletless_driver_app)
                    !! u_id (currentUser Sample2.walletless_driver_app) = None)
    by (vm_compute; reflexivity).
  destruct (completeRide_missing_driver_wallet Sample2.walletless_driver_app
              "ride-1" "rider-1" 15 Sample.one_seat_ride Hride Hnone)
    as (Hm & Hr & _ & Hw).
  split; [exact Hm|]. split; [exact Hr | exact Hw].
Defined.



Lemma onSnapshot_wallet_present (a : App) (b : Z) :
  st_wallets (db a) !! userId a = Some b ->
  db (onSnapshot a) = db a /\ wallet (onSnapshot a) = b
  /\ currentUser (onSnapshot a) = currentUser a /\ userId (onSnapshot a) = userId a.
Proof. intros H. unfold onSnapshot. by rewrite H. Qed.

(** [completeRide] changes the client state only in the store and the
    notice shown. *)
Lemma completeRide_local (a : App) (rideId riderId : string) (price : Z) :
  let a' := completeRide rideId riderId price a in
  currentUser a' = currentUser a /\ userId a' = userId a /\ wallet a' = wallet a.
Proof.
  unfold completeRide. fire. unfold updateDoc, getDocs, forEach_async. simpl.
  repeat (match goal with
          | |- context [match ?x !! ?k with _ => _ end] => destruct (x !! k) eqn:?; simpl
          end); done.
Qed.

(** [completeRide] does not look at the ride's status: called again on the
    ride it has just completed, it moves the price a second time.  With the
    replicas refreshed in between, the driver ends at [bd + 2 price] and the
    rider at [br - 2 price]; without a refresh the second credit is computed
    from the same replica balance, so the driver ends at [bd + price] while
    the rider is still debited twice. *)
Theorem completeRide_twice (a : App) (rideId riderId : string) (price : Z)
  (ride : Ride) (bd br : Z) :
  st_rides (db a) !! rideId = Some ride ->
  userId a = u_id (currentUser a) ->
  st_wallets (db a) !! u_id (currentUser a) = Some bd ->
  wallet a = bd ->
  st_wallets (db a) !! riderId = Some br ->
  u_id (currentUser a) <> riderId ->
  (let a' := completeRide rideId riderId price
               (onSnapshot (completeRide rideId riderId price a)) in
   modalMessage a' = Some CompleteDone
   /\ st_wallets (db a') !! u_id (currentUser a) = Some (bd + price + price)
   /\ st_wallets (db a') !! riderId = Some (br - price - price))
  /\ (let a' := completeRide rideId riderId price (completeRide rideId riderId price a) in
      modalMessage a' = Some CompleteDone
      /\ st_wallets (db a') !! u_id (currentUser a) = Some (bd + price)
      /\ st_wallets (db a') !! riderId = Some (br - price - price)).
Proof.
  intros Hride Huid Hbd Hsync Hbr Hne.
  destruct (completeRide_effect a rideId riderId price ride bd Hride Hbd)
    as (_ & _ & Hrides & _ & Hwallets).
  simpl in Hwallets. rewrite lookup_insert_ne, Hbr in Hwallets by done.
  set (a1 := completeRide rideId riderId price a) in *.
  destruct (completeRide_local a rideId riderId price) as (Hcu & Hui & Hwa).
  fold a1 in Hcu, Hui, Hwa.
  assert (Hd1 : st_wallets (db a1) !! u_id (currentUser a) = Some (bd + price)).
  { rewrite Hwallets, lookup_insert_ne, lookup_insert_eq, Hsync by done. done. }
  assert (Hr1 : st_wallets (db a1) !! riderId = Some (br - price)).
  { rewrite Hwallets. apply lookup_insert_eq. }
  assert (Hride1 : st_rides (db a1) !! rideId = Some (set_ride_status RideCompleted ride)).
  { rewrite Hrides. apply lookup_insert_eq. }
  split.
  - destruct (onSnapshot_wallet_present a1 (bd + price)) as (Hdb & Hw & Hcu' & _).
    { by rewrite Hui, Huid. }
    intros a'.
    destruct (completeRide_effect (onSnapshot a1) rideId riderId price
                (set_ride_status RideCompleted ride) (bd + price))
      as (Hmsg & _ & _ & _ & Hwallets2).
    { by rewrite Hdb. }
    { by rewrite Hdb, Hcu', Hcu. }
    fold a' in Hmsg, Hwallets2. simpl in Hwallets2.
    rewrite Hdb, Hcu', Hcu, Hw in Hwallets2.
    rewrite lookup_insert_ne, Hr1 in Hwallets2 by done.
    rewrite Hwallets2, lookup_insert_ne, !lookup_insert_eq by done. done.
  - intros a'.
    destruct (completeRide_effect a1 rideId riderId price
                (set_ride_status RideCompleted ride) (bd + price))
      as (Hmsg & _ & _ & _ & Hwallets2).
    { done. }
    { by rewrite Hcu. }
    fold a' in Hmsg, Hwallets2. simpl in Hwallets2.
    rewrite Hcu, Hwa, Hsync in Hwallets2.
    rewrite lookup_insert_ne, Hr1 in Hwallets2 by done.
    rewrite Hwallets2, lookup_insert_ne, !lookup_insert_eq by done. done.
Qed.

Lemma completeRide_twice_witness :
  (let a' := completeRide "ride-1" "rider-1" 15
               (onSnapshot (completeRide "ride-1" "rider-1" 15 Sample.driver_app)) in
   modalMessage a' = Some CompleteDone
   /\ st_wallets (db a') !! u_id (currentUser Sample.driver_app) = Some (100 + 15 + 15)
   /\ st_wallets (db a') !! "rider-1" = Some (10 - 15 - 15))
  /\ (let a' := completeRide "ride-1" "rider-1" 15
                  (completeRide "ride-1" "rider-1" 15 Sample.driver_app) in
      modalMessage a' = Some CompleteDone
      /\ st_wallets (db a') !! u_id (currentUser Sample.driver_app) = Some (100 + 15)
      /\ st_wallets (db a') !! "rider-1" = Some (10 - 15 - 15)).
Proof.
  assert (Hride : st_rides (db Sample.driver_app) !! "ride-1" = Some Sample.one_seat_ride)
    by (vm_compute; reflexivity).
  assert (Huid : userId Sample.driver_app = u_id (currentUser Sample.driver_app))
    by (vm_compute; reflexivity).
  assert (Hbd : st_wallets (db Sample.driver_app) !! u_id (currentUser Sample.driver_app)
                = Some 100) by (vm_compute; reflexivity).
  assert (Hsync : wallet Sample.driver_app = 100) by (vm_compute; reflexivity).
  assert (Hbr : st_wallets (db Sample.driver_app) !! "rider-1" = Some 10)
    by (vm_compute; reflexivity).
  assert (Hne : u_id (currentUser Sample.driver_app) <> "rider-1")
    by (vm_compute; discriminate).
  exact (completeRide_twice Sample.driver_app "ride-1" "rider-1" 15
           Sample.one_seat_ride 100 10 Hride Huid Hbd Hsync Hbr Hne).
Defined.

(** ** Requesting a ride: what is written, and when *)

(** [requestRide] writes only when it reports 'Ride request sent
    successfully!'.  Every other outcome leaves the store untouched; a sent
    request adds exactly one document, pending, priced at the listed ride's
    price per seat, and changes no ride: requesting reserves no seat. *)
Theorem requestRide_writes_iff_sent (a : App) (rideId now : string) :
  let a' := requestRide rideId now a in
  (modalMessage a' <> Some ReqSent -> db a' = db a)
  /\ (modalMessage a' = Some ReqSent ->
      exists newId rid ride,
        List.find (fun r => String.eqb (fst r) rideId) (rides a) = Some (rid, ride)
        /\ st_requests (db a) !! newId = None
        /\ st_requests (db a')
           = <[newId := newRequest rideId ride now (currentUser a)]> (st_requests (db a))
        /\ rq_status (newRequest rideId ride now (currentUser a)) = ReqPending
        /\ rq_price (newRequest rideId ride now (currentUser a)) = r_pricePerSeat ride
        /\ st_rides (db a') = st_rides (db a)
        /\ st_wallets (db a') = st_wallets (db a)
        /\ st_profiles (db a') = st_profiles (db a)).
Proof.
  intros a'. subst a'. unfold requestRide.
  destruct (negb _); [by split|].
  destruct (List.find _ (rides a)) as [[rid ride]|] eqn:Hfind; [|by split].
  destruct (r_availableSeats ride <=? 0); [by split|].
  destruct (List.find _ (rideRequests a)); [by split|].
  fire. split; [done|]. intros _.
  exists (fresh (dom (st_requests (db a)))), rid, ride.
  repeat split. apply not_elem_of_dom, is_fresh.
Qed.

Lemma requestRide_writes_iff_sent_witness :
  st_rides (db (requestRide "ride-1" "2025-05-31T10:00:00.000Z" Sample.rider3_app))
  = st_rides (db Sample.rider3_app)
  /\ db (requestRide "ride-1" "2025-05-31T10:00:00.000Z" Sample.driver_app)
     = db Sample.driver_app.
Proof.
  assert (Hsent : modalMessage (requestRide "ride-1" "2025-05-31T10:00:00.000Z"
                                  Sample.rider3_app) = Some ReqSent)
    by (vm_compute; reflexivity).
  assert (Hnot : modalMessage (requestRide "ride-1" "2025-05-31T10:00:00.000Z"
                                 Sample.driver_app) <> Some ReqSent)
    by (vm_compute; discriminate).
  split.
  - destruct (proj2 (requestRide_writes_iff_sent Sample.rider3_app "ride-1"
                       "2025-05-31T10:00:00.000Z") Hsent)
      as (newId & rid & ride & _ & _ & _ & _ & _ & Hrides & _).
    exact Hrides.
  - exact (proj1 (requestRide_writes_iff_sent Sample.driver_app "ride-1"
                    "2025-05-31T10:00:00.000Z") Hnot).
Defined.

(** The ride is looked up in the replica: a rider asking for a ride that
    the replica does not list is told 'Ride not found.', whether or not the
    store holds it, and nothing is written. *)
Theorem requestRide_unlisted_ride (a : App) (rideId now : string) :
  u_userType (currentUser a) = "rider" ->
  (forall r, In r (rides a) -> fst r <> rideId) ->
  let a' := requestRide rideId now a in
  modalMessage a' = Some ReqRideNotFound /\ db a' = db a.
Proof.
  intros Hty Hunlisted. unfold requestRide. rewrite Hty. simpl.
  destruct (List.find _ (rides a)) as [[rid ride]|] eqn:Hfind; [|done].
  apply find_some in Hfind as (Hin & Heq). simpl in Heq.
  apply String.eqb_eq in Heq. by destruct (Hunlisted _ Hin).
Qed.

Lemma requestRide_unlisted_ride_witness :
  let a' := requestRide "ride-1" "2025-05-31T10:00:00.000Z"
              (mkApp Sample.store "rider-3" Sample.rider3 "rider" "searchRides" [] [] 0 None) in
  modalMessage a' = Some ReqRideNotFound /\ db a' = Sample.store.
Proof.
  apply (requestRide_unlisted_ride
           (mkApp Sample.store "rider-3" Sample.rider3 "rider" "searchRides" [] [] 0 None)
           "ride-1" "2025-05-31T10:00:00.000Z").
  - reflexivity.
  - intros r [].
Defined.

(** ** Route overlap: shared stops, added stops, letter case *)

Lemma prefix_refl (s : string) : String.prefix s s = true.
Proof.
  induction s as [|c s IH]; simpl; [done|].
  destruct (ascii_dec c c); [exact IH | done].
Qed.

Lemma includes_refl (s : string) : Js.includes s s = true.
Proof.
  pose proof (prefix_refl s) as H.
  destruct s; cbn [Js.includes]; by rewrite H.
Qed.

Lemma overlap_points_intro (l1 l2 : list string) (p1 p2 : string) :
  In p1 l1 -> In p2 l2 ->
  Js.includes p1 p2 || Js.includes p2 p1 = true ->
  overlap_points l1 l2 = true.
Proof.
  intros H1 H2 H. unfold overlap_points.
  apply existsb_exists. exists p1. split; [done|].
  apply existsb_exists. exists p2. by split.
Qed.

Lemma checkRouteOverlap_true (A B : list string) :
  checkRouteOverlap (Arr A) (Arr B) = true <->
  exists p q, In p A /\ In q B
              /\ Js.includes (Js.toLowerCase p) (Js.toLowerCase q)
                 || Js.includes (Js.toLowerCase q) (Js.toLowerCase p) = true.
Proof.
  split.
  - destruct A as [|a A], B as [|b B]; try done.
    unfold checkRouteOverlap, overlap_points.
    intros H. apply existsb_exists in H as (p1 & Hp1 & H).
    apply existsb_exists in H as (p2 & Hp2 & H).
    apply in_map_iff in Hp1 as (p & <- & Hp), Hp2 as (q & <- & Hq). eauto.
  - intros (p & q & Hp & Hq & H).
    destruct A as [|a A]; [done|]. destruct B as [|b B]; [done|].
    unfold checkRouteOverlap.
    eapply overlap_points_intro; [by apply in_map | by apply in_map | exact H].
Qed.

(** Two routes that share a stop, up to letter case, overlap; in
    particular every non-empty route overlaps itself. *)
Theorem checkRouteOverlap_shared_stop (A B : list string) (p q : string) :
  In p A -> In q B -> Js.toLowerCase p = Js.toLowerCase q ->
  checkRouteOverlap (Arr A) (Arr B) = true.
Proof.
  intros Hp Hq Heq. apply checkRouteOverlap_true. exists p, q.
  repeat split; try done. by rewrite Heq, includes_refl.
Qed.

Lemma checkRouteOverlap_shared_stop_witness :
  checkRouteOverlap (Arr ["Union Station"; "AIRPORT"]) (Arr ["Airport"; "Mississauga"]) = true.
Proof.
  apply (checkRouteOverlap_shared_stop _ _ "AIRPORT" "Airport").
  - right. left. reflexivity.
  - left. reflexivity.
  - reflexivity.
Defined.

(** Adding stops to either route never loses a match: the stops of a route
    are alternatives. *)
Theorem checkRouteOverlap_more_stops (A B A1 A2 B1 B2 : list string) :
  checkRouteOverlap (Arr A) (Arr B) = true ->
  checkRouteOverlap (Arr (A1 ++ A ++ A2)) (Arr (B1 ++ B ++ B2)) = true.
Proof.
  rewrite !checkRouteOverlap_true. intros (p & q & Hp & Hq & H).
  exists p, q. rewrite !in_app_iff. auto.
Qed.

Lemma checkRouteOverlap_more_stops_witness :
  checkRouteOverlap (Arr (["Oakville"] ++ ["Toronto Downtown"] ++ ["Mississauga"]))
                    (Arr ([] ++ ["downtown"] ++ ["Airport"])) = true.
Proof.
  apply (checkRouteOverlap_more_stops ["Toronto Downtown"] ["downtown"]).
  reflexivity.
Defined.

Lemma map_eq_nil_iff {A B} (f : A -> B) (l l' : list A) :
  map f l = map f l' -> (l = [] <-> l' = []).
Proof. destruct l, l'; simpl; intros H; split; intros H'; congruence. Qed.

(** Matching ignores letter case: two routes that differ only in the case
    of their stops overlap exactly the same routes. *)
Theorem checkRouteOverlap_case_insensitive (A A' B : list string) :
  map Js.toLowerCase A = map Js.toLowerCase A' ->
  checkRouteOverlap (Arr A) (Arr B) = checkRouteOverlap (Arr A') (Arr B)
  /\ checkRouteOverlap (Arr B) (Arr A) = checkRouteOverlap (Arr B) (Arr A').
Proof.
  intros H. pose proof (map_eq_nil_iff _ _ _ H) as Hnil.
  destruct A as [|a A], A' as [|a' A']; try (destruct Hnil; done); split;
    destruct B as [|b B]; try done; unfold checkRouteOverlap; by rewrite H.
Qed.

Lemma checkRouteOverlap_case_insensitive_witness :
  checkRouteOverlap (Arr ["TORONTO"; "Airport"]) (Arr ["toronto downtown"])
  = checkRouteOverlap (Arr ["toronto"; "AIRPORT"]) (Arr ["toronto downtown"]).
Proof.
  apply (checkRouteOverlap_case_insensitive ["TORONTO"; "Airport"] ["toronto"; "AIRPORT"]).
  reflexivity.
Defined.

(** ** Search: blank criteria, added points, posted rides *)

(** With [from] and [to] empty and every route point blank, the search
    returns exactly the rides of the catalog that have a seat left, in
    catalog order. *)
Theorem handleSearch_blank_criteria (rides : list (string * Ride)) (q : SearchQuery) :
  sq_from q = "" -> sq_to q = "" ->
  Forall (fun p => nonblank p = false) (sq_route q) ->
  handleSearch rides q = List.filter (fun x => 0 <? r_availableSeats (snd x)) rides.
Proof.
  intros Hfrom Hto Hroute. unfold handleSearch. apply filter_ext.
  intros [id ride]. simpl.
  assert (Hf : fromMatch q ride = true) by (unfold fromMatch; by rewrite Hfrom).
  assert (Ht : toMatch q ride = true) by (unfold toMatch; by rewrite Hto).
  assert (Hr : routeMatch q ride = true).
  { unfold routeMatch.
    rewrite (proj2 (fullSearchRoute_nil q)); [done|].
    rewrite Hfrom, Hto. by repeat split. }
  rewrite Hf, Ht, Hr. simpl. by rewrite andb_true_r.
Qed.

Lemma handleSearch_blank_criteria_witness :
  handleSearch [("ride-1", Sample.posted_ride);
                ("ride-2", set_ride_seats 0 Sample.posted_ride)]
               (mkQuery "" "" [""; "  "])
  = List.filter (fun x => 0 <? r_availableSeats (snd x))
      [("ride-1", Sample.posted_ride); ("ride-2", set_ride_seats 0 Sample.posted_ride)].
Proof.
  apply (handleSearch_blank_criteria _ (mkQuery "" "" [""; "  "])).
  - reflexivity.
  - reflexivity.
  - repeat constructor.
Defined.

Lemma fullSearchRoute_more_points (q : SearchQuery) (extra : list string) (p : string) :
  In p (fullSearchRoute q) ->
  In p (fullSearchRoute (mkQuery (sq_from q) (sq_to q) (sq_route q ++ extra))).
Proof.
  unfold fullSearchRoute. cbn [sq_from sq_to sq_route].
  rewrite !filter_In. intros [Hin Hnb]. split; [|done].
  destruct Hin as [Hin|Hin]; [by left | right].
  rewrite in_app_iff in *. rewrite List.filter_app, in_app_iff. tauto.
Qed.

(** Route points of the criteria are alternatives, not constraints: once
    the criteria name some non-blank [from], [to] or route point, adding
    further route points never removes a ride from the result. *)
Theorem handleSearch_more_points (rides : list (string * Ride)) (q : SearchQuery)
  (extra : list string) (x : string * Ride) :
  fullSearchRoute q <> [] ->
  In x (handleSearch rides q) ->
  In x (handleSearch rides (mkQuery (sq_from q) (sq_to q) (sq_route q ++ extra))).
Proof.
  intros Hne. rewrite !handleSearch_In. intros (Hin & Hf & Ht & Hs & Hr).
  repeat split; try done.
  apply routeMatch_true in Hr; [|exact Hne].
  apply routeMatch_true. intros _.
  destruct (r_route (snd x)) as [|A]; [done|].
  apply checkRouteOverlap_true in Hr as (p & s & Hp & Hs' & H).
  apply checkRouteOverlap_true. exists p, s.
  repeat split; try done. by apply fullSearchRoute_more_points.
Qed.

Lemma handleSearch_more_points_witness :
  In ("ride-1", Sample.posted_ride)
     (handleSearch [("ride-1", Sample.posted_ride)]
        (mkQuery "Downtown" "Mississauga" ([""] ++ ["Airport"; "Hamilton"]))).
Proof.
  apply (handleSearch_more_points [("ride-1", Sample.posted_ride)] Sample.scenario_query
           ["Airport"; "Hamilton"] ("ride-1", Sample.posted_ride)).
  - discriminate.
  - left. reflexivity.
Defined.

Lemma handlePostRide_posted (rideData : RideData) (now : string) (a : App) (seats price : Z) :
  rd_from rideData <> "" -> rd_to rideData <> "" -> rd_startTime rideData <> "" ->
  rd_availableSeats rideData = Some seats -> seats <> 0 ->
  rd_pricePerSeat rideData = Some price -> price <> 0 ->
  u_userType (currentUser a) = "driver" ->
  db (handlePostRide rideData now a)
  = col_set ridesC (<[fresh (dom (st_rides (db a))) := newRide rideData now (currentUser a)]>
                      (st_rides (db a))) (db a).
Proof.
  intros Hfrom Hto Hstart Hseats Hs Hprice Hp Hty. unfold handlePostRide.
  apply truthy_true in Hfrom, Hto, Hstart.
  rewrite Hfrom, Hto, Hstart, Hseats, Hprice. simpl.
  rewrite (proj2 (Z.eqb_neq seats 0)), (proj2 (Z.eqb_neq price 0)) by done. simpl.
  rewrite Hty. simpl. by fire.
Qed.

(** A posted ride can be found.  After a driver posts a ride with a seat to
    offer and the ride replica is refreshed, searching for the ride's own
    [from] and [to], with any route points added, returns the ride. *)
Theorem posted_ride_is_found (rideData : RideData) (now : string) (a : App)
  (seats price : Z) (points : list string) :
  nonblank (rd_from rideData) = true ->
  rd_to rideData <> "" -> rd_startTime rideData <> "" ->
  rd_availableSeats rideData = Some seats -> 0 < seats ->
  rd_pricePerSeat rideData = Some price -> price <> 0 ->
  u_userType (currentUser a) = "driver" ->
  let a' := onSnapshot (handlePostRide rideData now a) in
  exists id,
    st_rides (db a) !! id = None
    /\ In (id, newRide rideData now (currentUser a))
          (handleSearch (rides a') (mkQuery (rd_from rideData) (rd_to rideData) points)).
Proof.
  intros Hnb Hto Hstart Hseats Hs Hprice Hp Hty a'.
  assert (Hfrom : rd_from rideData <> "").
  { intros E. rewrite E in Hnb. done. }
  exists (fresh (dom (st_rides (db a)))). split; [apply not_elem_of_dom, is_fresh|].
  apply handleSearch_In. split; [|split; [|split; [|split]]].
  - destruct (onSnapshot_replicas (handlePostRide rideData now a)) as (_ & Hrides & _).
    unfold a'. rewrite Hrides.
    rewrite (handlePostRide_posted rideData now a seats price) by (done || lia).
    simpl. apply list_elem_of_In, elem_of_map_to_list, lookup_insert_eq.
  - apply fromMatch_true. intros _. apply includes_refl.
  - apply toMatch_true. intros _. apply includes_refl.
  - unfold seatsAvailable. simpl. rewrite Hseats. simpl. by apply Z.ltb_lt.
  - apply routeMatch_true. intros _. unfold newRide. cbn [snd r_route].
    apply checkRouteOverlap_true.
    exists (rd_from rideData), (rd_from rideData).
    split; [by left|]. split; [|by rewrite includes_refl].
    unfold fullSearchRoute. apply filter_In. split; [by left | exact Hnb].
Qed.

Lemma posted_ride_is_found_witness :
  let a' := onSnapshot (handlePostRide Sample.ride_form "2025-05-30T10:00:00.000Z"
                          Sample.driver_app) in
  exists id,
    st_rides (db Sample.driver_app) !! id = None
    /\ In (id, newRide Sample.ride_form "2025-05-30T10:00:00.000Z"
                 (currentUser Sample.driver_app))
          (handleSearch (rides a')
             (mkQuery (rd_from Sample.ride_form) (rd_to Sample.ride_form) ["Airport"])).
Proof.
  assert (Hty : u_userType (currentUser Sample.driver_app) = "driver")
    by (vm_compute; reflexivity).
  assert (Hnb : nonblank (rd_from Sample.ride_form) = true) by (vm_compute; reflexivity).
  assert (Hto : rd_to Sample.ride_form <> "") by discriminate.
  assert (Hstart : rd_startTime Sample.ride_form <> "") by discriminate.
  exact (posted_ride_is_found Sample.ride_form "2025-05-30T10:00:00.000Z"
           Sample.driver_app 2 15 ["Airport"] Hnb Hto Hstart eq_refl ltac:(lia)
           eq_refl ltac:(lia) Hty).
Defined.

(** ** Wallet: invariants, adding funds, round trip *)

(** A withdrawal never overdraws a wallet whose balance the replica shows:
    whatever amount is entered (NaN included), the stored balance does not
    grow, a non-negative balance stays non-negative, and nothing but the
    caller's wallet is written. *)
Theorem handleWithdrawFunds_never_overdraws (a : App) (w : option Z) (b : Z) :
  wallet a = b ->
  st_wallets (db a) !! userId a = Some b ->
  let a' := handleWithdrawFunds w a in
  (exists b', st_wallets (db a') !! userId a = Some b' /\ b' <= b /\ (0 <= b -> 0 <= b'))
  /\ (forall u, u <> userId a -> st_wallets (db a') !! u = st_wallets (db a) !! u)
  /\ st_rides (db a') = st_rides (db a)
  /\ st_requests (db a') = st_requests (db a)
  /\ st_profiles (db a') = st_profiles (db a).
Proof.
  intros Hb Hdoc a'. subst a'. unfold handleWithdrawFunds.
  destruct w as [w|]; [|simpl; split; [exists b; split; [done | lia] | done]].
  destruct (w <=? 0) eqn:Hw; [simpl; split; [exists b; split; [done | lia] | done]|].
  destruct (wallet a <? w) eqn:Hlt; [simpl; split; [exists b; split; [done | lia] | done]|].
  apply Z.leb_gt in Hw. apply Z.ltb_ge in Hlt.
  fire. rewrite (updateDoc_present walletsC (userId a) _ (db a) b Hdoc). simpl.
  split; [|repeat split].
  - exists (wallet a - w). rewrite lookup_insert_eq. split; [done | lia].
  - intros u Hu. by rewrite lookup_insert_ne.
Qed.

Lemma handleWithdrawFunds_never_overdraws_witness :
  let a' := handleWithdrawFunds (Some 100) Sample.driver_app in
  exists b', st_wallets (db a') !! userId Sample.driver_app = Some b'
             /\ b' <= 100 /\ (0 <= 100 -> 0 <= b').
Proof.
  assert (Hb : wallet Sample.driver_app = 100) by (vm_compute; reflexivity).
  assert (Hdoc : st_wallets (db Sample.driver_app) !! userId Sample.driver_app = Some 100)
    by (vm_compute; reflexivity).
  exact (proj1 (handleWithdrawFunds_never_overdraws Sample.driver_app (Some 100) 100 Hb Hdoc)).
Defined.

(** [handleAddFunds]: an amount that is NaN or not positive is refused with
    'Please enter a valid amount.' and nothing is written; a positive amount
    stores the replica's balance plus the amount in the caller's wallet and
    touches nothing else; when the caller has no wallet document the
    deposit fails with 'Failed to add funds.' and nothing is written. *)
Theorem handleAddFunds_spec (depositAmount : option Z) (userId : string) (wallet : Z)
  (s : Store) :
  (depositAmount = None \/ (exists d, depositAmount = Some d /\ d <= 0) ->
     handleAddFunds depositAmount userId wallet s = (s, DepositInvalidAmount))
  /\ (forall d b, depositAmount = Some d -> 0 < d -> st_wallets s !! userId = Some b ->
        handleAddFunds depositAmount userId wallet s
        = (col_set walletsC (<[userId := wallet + d]> (st_wallets s)) s, DepositDone d))
  /\ (forall d, depositAmount = Some d -> 0 < d -> st_wallets s !! userId = None ->
        handleAddFunds depositAmount userId wallet s = (s, DepositFailed)).
Proof.
  unfold handleAddFunds, try_notify. split; [|split].
  - intros [-> | (d & -> & Hd)]; [done|]. by rewrite (proj2 (Z.leb_le d 0) Hd).
  - intros d b -> Hd Hdoc. rewrite (proj2 (Z.leb_gt d 0) Hd).
    by rewrite (updateDoc_present walletsC userId _ s b Hdoc).
  - intros d -> Hd Hdoc. rewrite (proj2 (Z.leb_gt d 0) Hd).
    by rewrite (updateDoc_absent walletsC userId _ s Hdoc).
Qed.

Lemma handleAddFunds_spec_witness :
  handleAddFunds (Some (-5)) "driver-1" 100 Sample.store = (Sample.store, DepositInvalidAmount)
  /\ handleAddFunds (Some 25) "driver-1" 100 Sample.store
     = (col_set walletsC (<["driver-1" := 100 + 25]> (st_wallets Sample.store)) Sample.store,
        DepositDone 25)
  /\ handleAddFunds (Some 25) "rider-2" 0 Sample.store = (Sample.store, DepositFailed).
Proof.
  split; [|split].
  - apply (handleAddFunds_spec (Some (-5)) "driver-1" 100 Sample.store).
    right. exists (-5). split; [reflexivity | lia].
  - apply (proj1 (proj2 (handleAddFunds_spec (Some 25) "driver-1" 100 Sample.store))
             25 100 eq_refl).
    + lia.
    + vm_compute; reflexivity.
  - apply (proj2 (proj2 (handleAddFunds_spec (Some 25) "rider-2" 0 Sample.store))
             25 eq_refl).
    + lia.
    + vm_compute; reflexivity.
Defined.



(** ** Rejecting and cancelling *)

(** [rejectRequest] and [cancelRequest] apply their write whatever the
    request's status is (accepted and completed requests included) and
    touch nothing but that request; for an identifier that is not in the
    store they write nothing and report the failure. *)
Theorem reject_cancel_unconditional (s : Store) (requestId : string) :
  (forall rq, st_requests s !! requestId = Some rq ->
     rejectRequest requestId s
     = (col_set requestsC (<[requestId := set_request_status ReqRejected rq]> (st_requests s)) s,
        RejectDone)
     /\ cancelRequest requestId s
        = (col_set requestsC (<[requestId := set_request_status ReqCancelled rq]> (st_requests s)) s,
           CancelDone))
  /\ (st_requests s !! requestId = None ->
      rejectRequest requestId s = (s, RejectFailed)
      /\ cancelRequest requestId s = (s, CancelFailed)).
Proof.
  unfold rejectRequest, cancelRequest, try_notify. split.
  - intros rq Hrq.
    by rewrite !(updateDoc_present requestsC requestId _ s rq Hrq).
  - intros Hnone. by rewrite !(updateDoc_absent requestsC requestId _ s Hnone).
Qed.

Lemma reject_cancel_unconditional_witness :
  cancelRequest "req-1" Sample.store
  = (col_set requestsC
       (<["req-1" := set_request_status ReqCancelled (Sample.pending_request "rider-1" "Riley")]>
          (st_requests Sample.store)) Sample.store, CancelDone)
  /\ rejectRequest "req-9" Sample.store = (Sample.store, RejectFailed).
Proof.
  destruct (reject_cancel_unconditional Sample.store "req-1") as [Hsome _].
  destruct (reject_cancel_unconditional Sample.store "req-9") as [_ Hnone].
  split.
  - apply (Hsome (Sample.pending_request "rider-1" "Riley")). vm_compute; reflexivity.
  - apply Hnone. vm_compute; reflexivity.
Defined.

(** Cancelling does not give the seat back: after [acceptRequest] and then
    [cancelRequest] on the same request, the request is cancelled and the
    ride still has one seat less than before the acceptance. *)
Theorem accept_then_cancel_keeps_seat_taken (a : App) (requestId rideId : string)
  (rq : RideRequest) (ride : Ride) :
  st_requests (db a) !! requestId = Some rq ->
  st_rides (db a) !! rideId = Some ride ->
  let cancelled := cancelRequest requestId (db (acceptRequest requestId rideId a)) in
  snd cancelled = CancelDone
  /\ rq_status <$> st_requests (fst cancelled) !! requestId = Some ReqCancelled
  /\ r_availableSeats <$> st_rides (fst cancelled) !! rideId
     = Some (r_availableSeats ride - 1).
Proof.
  intros Hrq Hride cancelled. subst cancelled.
  rewrite (acceptRequest_effect a requestId rideId rq ride Hrq Hride). simpl.
  unfold cancelRequest, try_notify.
  erewrite (updateDoc_present requestsC requestId) by (simpl; apply lookup_insert_eq).
  simpl. by rewrite !lookup_insert_eq.
Qed.

Lemma accept_then_cancel_keeps_seat_taken_witness :
  let cancelled := cancelRequest "req-1"
                     (db (acceptRequest "req-1" "ride-1" Sample.driver_app)) in
  snd cancelled = CancelDone
  /\ rq_status <$> st_requests (fst cancelled) !! "req-1" = Some ReqCancelled
  /\ r_availableSeats <$> st_rides (fst cancelled) !! "ride-1"
     = Some (r_availableSeats Sample.one_seat_ride - 1).
Proof.
  apply (accept_then_cancel_keeps_seat_taken Sample.driver_app "req-1" "ride-1"
           (Sample.pending_request "rider-1" "Riley") Sample.one_seat_ride).
  - vm_compute; reflexivity.
  - vm_compute; reflexivity.
Defined.

Lemma find_none_intro {A} (f : A -> bool) (l : list A) :
  (forall x, In x l -> f x = false) -> List.find f l = None.
Proof.
  intros H. destruct (List.find f l) as [x|] eqn:E; [|done].
  apply find_some in E as [Hin Hf]. rewrite (H x Hin) in Hf. done.
Qed.

(** [requestRide] on a state whose replicas show the store, for a rider, a
    stored ride with a free seat and no pending or accepted request of the
    rider for it. *)
Lemma requestRide_after_snapshot (a : App) (rideId now : string) (ride : Ride) :
  u_userType (currentUser a) = "rider" ->
  st_rides (db a) !! rideId = Some ride ->
  0 < r_availableSeats ride ->
  (forall id q, st_requests (db a) !! id = Some q ->
     is_existing_request rideId (u_id (currentUser a)) q = false) ->
  let a' := requestRide rideId now (onSnapshot a) in
  modalMessage a' = Some ReqSent
  /\ size (st_requests (db a')) = S (size (st_requests (db a))).
Proof.
  intros Hty Hride Hseats Hfree.
  destruct (onSnapshot_replicas a) as (Hu & Hrides & Hreqs & Hsreq & Hsrides).
  unfold requestRide. rewrite Hu, Hty, Hrides. simpl.
  rewrite (find_map_to_list _ _ _ Hride).
  destruct (r_availableSeats ride <=? 0) eqn:E; [apply Z.leb_le in E; lia|].
  rewrite find_none_intro.
  2: { intros [id q] Hin. rewrite Hreqs in Hin.
       apply list_elem_of_In, elem_of_map_to_list in Hin. simpl. eauto. }
  fire. split; [done|]. rewrite Hsreq.
  apply map_size_insert_None. rewrite <- Hsreq. apply not_elem_of_dom, is_fresh.
Qed.

(** A cancelled or rejected request no longer blocks the rider: once the
    replicas show the cancellation (or the rejection), the rider can request
    the same ride again, and the store then holds both requests. *)
Theorem request_again_after_cancel_or_reject (a : App) (requestId rideId now : string)
  (rq : RideRequest) (ride : Ride) :
  u_userType (currentUser a) = "rider" ->
  st_rides (db a) !! rideId = Some ride ->
  0 < r_availableSeats ride ->
  st_requests (db a) !! requestId = Some rq ->
  (forall id q, id <> requestId -> st_requests (db a) !! id = Some q ->
     is_existing_request rideId (u_id (currentUser a)) q = false) ->
  (let a' := requestRide rideId now
               (onSnapshot (set_db (fst (cancelRequest requestId (db a))) a)) in
   modalMessage a' = Some ReqSent
   /\ size (st_requests (db a')) = S (size (st_requests (db a))))
  /\ (let a' := requestRide rideId now
                  (onSnapshot (set_db (fst (rejectRequest requestId (db a))) a)) in
      modalMessage a' = Some ReqSent
      /\ size (st_requests (db a')) = S (size (st_requests (db a)))).
Proof.
  intros Hty Hride Hseats Hrq Hothers.
  assert (Hsize : forall q', size (<[requestId := q']> (st_requests (db a)))
                             = size (st_requests (db a))).
  { intros q'. apply map_size_insert_Some. by rewrite Hrq. }
  assert (Hfree : forall st q', ~ (st = ReqPending \/ st = ReqAccepted) ->
            forall id q,
              <[requestId := set_request_status st q']> (st_requests (db a)) !! id = Some q ->
              q' = rq ->
              is_existing_request rideId (u_id (currentUser a)) q = false).
  { intros st q' Hst id q Hq ->. destruct (decide (id = requestId)) as [->|Hne].
    - rewrite lookup_insert_eq in Hq. injection Hq as <-.
      destruct (is_existing_request _ _ _) eqn:E; [|done].
      apply is_existing_request_true in E as (_ & _ & E). simpl in E. done.
    - rewrite lookup_insert_ne in Hq by done. by apply (Hothers id). }
  set (cancelled := fst (cancelRequest requestId (db a))).
  set (rejected := fst (rejectRequest requestId (db a))).
  assert (Hc : cancelled = col_set requestsC
                 (<[requestId := set_request_status ReqCancelled rq]> (st_requests (db a)))
                 (db a)).
  { unfold cancelled, cancelRequest, try_notify.
    by rewrite (updateDoc_present requestsC requestId _ (db a) rq Hrq). }
  assert (Hr : rejected = col_set requestsC
                 (<[requestId := set_request_status ReqRejected rq]> (st_requests (db a)))
                 (db a)).
  { unfold rejected, rejectRequest, try_notify.
    by rewrite (updateDoc_present requestsC requestId _ (db a) rq Hrq). }
  split.
  - destruct (requestRide_after_snapshot (set_db cancelled a) rideId now ride)
      as [Hmsg Hsz]; try done.
    { rewrite Hc. simpl. exact Hride. }
    { rewrite Hc. simpl. intros id q Hq.
      apply (Hfree ReqCancelled rq ltac:(intros [?|?]; done) id q Hq eq_refl). }
    split; [exact Hmsg|]. rewrite Hsz, Hc. simpl. by rewrite Hsize.
  - destruct (requestRide_after_snapshot (set_db rejected a) rideId now ride)
      as [Hmsg Hsz]; try done.
    { rewrite Hr. simpl. exact Hride. }
    { rewrite Hr. simpl. intros id q Hq.
      apply (Hfree ReqRejected rq ltac:(intros [?|?]; done) id q Hq eq_refl). }
    split; [exact Hmsg|]. rewrite Hsz, Hr. simpl. by rewrite Hsize.
Qed.

Lemma request_again_after_cancel_or_reject_witness :
  let a' := requestRide "ride-1" "2025-05-31T12:00:00.000Z"
              (onSnapshot (set_db (fst (cancelRequest "req-1" (db Sample.rider1_app)))
                                  Sample.rider1_app)) in
  modalMessage a' = Some ReqSent
  /\ size (st_requests (db a')) = S (size (st_requests (db Sample.rider1_app))).
Proof.
  assert (Hty : u_userType (currentUser Sample.rider1_app) = "rider")
    by (vm_compute; reflexivity).
  assert (Hride : st_rides (db Sample.rider1_app) !! "ride-1" = Some Sample.one_seat_ride)
    by (vm_compute; reflexivity).
  assert (Hseats : 0 < r_availableSeats Sample.one_seat_ride) by (vm_compute; reflexivity).
  assert (Hrq : st_requests (db Sample.rider1_app) !! "req-1"
                = Some (Sample.pending_request "rider-1" "Riley"))
    by (vm_compute; reflexivity).
  assert (Hreqs : st_requests (db Sample.rider1_app)
                  = <["req-1" := Sample.pending_request "rider-1" "Riley"]>
                      {["req-2" := Sample.pending_request "rider-2" "Robin"]})
    by (vm_compute; reflexivity).
  assert (Hothers : forall id q, id <> "req-1" ->
            st_requests (db Sample.rider1_app) !! id = Some q ->
            is_existing_request "ride-1" (u_id (currentUser Sample.rider1_app)) q = false).
  { intros id q Hne. rewrite Hreqs, lookup_insert_ne by done.
    intros [_ <-]%lookup_singleton_Some. vm_compute; reflexivity. }
  exact (proj1 (request_again_after_cancel_or_reject Sample.rider1_app "req-1" "ride-1"
                  "2025-05-31T12:00:00.000Z" (Sample.pending_request "rider-1" "Riley")
                  Sample.one_seat_ride Hty Hride Hseats Hrq Hothers)).
Defined.

(** ** Chat *)



(** [sendMessage] to a thread that exists appends the message after the
    stored ones, keeps the participants and every other thread, stores the
    text as typed, and sets the replica of the thread to the same list. *)
Theorem sendMessage_appends (now now' : string) (m : Messenger) (chat : ActiveChat)
  (d : ChatDoc) :
  activeChat m = Some chat ->
  Js.trim (newMessage m) <> "" ->
  chat_db m !! ac_id chat = Some d ->
  let message := mkMessage (u_id (chat_user m)) (u_name (chat_user m)) (newMessage m) now in
  let m' := sendMessage now now' m in
  chat_db m' !! ac_id chat
  = Some (mkChatDoc (c_participants d) (Some (default [] (c_messages d) ++ [message])%list)
                    (c_createdAt d))
  /\ (forall id, id <> ac_id chat -> chat_db m' !! id = chat_db m !! id)
  /\ messages m' !! ac_id chat = Some (default [] (c_messages d) ++ [message])%list
  /\ newMessage m' = "" /\ chat_modal m' = chat_modal m.
Proof.
  intros Hchat Htext Hd message m'. subst m'. unfold sendMessage.
  rewrite Hchat. apply truthy_true in Htext. rewrite Htext. simpl. rewrite Hd. simpl.
  rewrite !lookup_insert_eq. repeat split.
  intros id Hid. by rewrite lookup_insert_ne.
Qed.

Lemma sendMessage_appends_witness :
  let message := mkMessage "rider-1" "Riley" "See you at 8" "2025-05-31T11:05:00.000Z" in
  let m' := sendMessage "2025-05-31T11:05:00.000Z" "2025-05-31T11:05:00.001Z"
              Sample2.messenger in
  chat_db m' !! "ride-ride1-rider-rider-1"
  = Some (mkChatDoc (Some ["rider-1"; "driver-1"]) (Some [Sample2.hello; message])
                    "2025-05-31T10:59:00.000Z")
  /\ messages m' !! "ride-ride1-rider-rider-1" = Some [Sample2.hello; message].
Proof.
  assert (Hd : chat_db Sample2.messenger !! ac_id Sample2.chat_with_driver
               = Some Sample2.thread) by (vm_compute; reflexivity).
  assert (Htext : Js.trim (newMessage Sample2.messenger) <> "") by (vm_compute; discriminate).
  destruct (sendMessage_appends "2025-05-31T11:05:00.000Z" "2025-05-31T11:05:00.001Z"
              Sample2.messenger Sample2.chat_with_driver Sample2.thread
              eq_refl Htext Hd) as (Hdb & _ & Hrep & _).
  split; [exact Hdb | exact Hrep].
Defined.

(** The first message to a thread that does not exist yet creates the
    thread with the sender and the partner as participants and the message
    as its only one; the replica of the thread, though, is set to the empty
    list, so the message is not shown until the next snapshot. *)
Theorem sendMessage_creates_thread (now now' : string) (m : Messenger) (chat : ActiveChat) :
  activeChat m = Some chat ->
  Js.trim (newMessage m) <> "" ->
  chat_db m !! ac_id chat = None ->
  let message := mkMessage (u_id (chat_user m)) (u_name (chat_user m)) (newMessage m) now in
  let m' := sendMessage now now' m in
  chat_db m' !! ac_id chat
  = Some (mkChatDoc (Some [u_id (chat_user m); ac_partnerId chat]) (Some [message]) now')
  /\ (forall id, id <> ac_id chat -> chat_db m' !! id = chat_db m !! id)
  /\ messages m' !! ac_id chat = Some []
  /\ newMessage m' = "".
Proof.
  intros Hchat Htext Hd message m'. subst m'. unfold sendMessage.
  rewrite Hchat. apply truthy_true in Htext. rewrite Htext. simpl. rewrite Hd. simpl.
  rewrite !lookup_insert_eq. repeat split.
  intros id Hid. by rewrite lookup_insert_ne.
Qed.

Lemma sendMessage_creates_thread_witness :
  let message := mkMessage "rider-1" "Riley" "Hi" "2025-05-31T11:05:00.000Z" in
  let m' := sendMessage "2025-05-31T11:05:00.000Z" "2025-05-31T11:05:00.001Z"
              Sample2.fresh_messenger in
  chat_db m' !! "ride-ride1-rider-rider-1"
  = Some (mkChatDoc (Some ["rider-1"; "driver-1"]) (Some [message])
                    "2025-05-31T11:05:00.001Z")
  /\ messages m' !! "ride-ride1-rider-rider-1" = Some [].
Proof.
  assert (Hd : chat_db Sample2.fresh_messenger !! ac_id Sample2.chat_with_driver = None)
    by (vm_compute; reflexivity).
  assert (Htext : Js.trim (newMessage Sample2.fresh_messenger) <> "")
    by (vm_compute; discriminate).
  destruct (sendMessage_creates_thread "2025-05-31T11:05:00.000Z" "2025-05-31T11:05:00.001Z"
              Sample2.fresh_messenger Sample2.chat_with_driver
              eq_refl Htext Hd) as (Hdb & _ & Hrep & _).
  split; [exact Hdb | exact Hrep].
Defined.

Lemma onMessagesSnapshot_lookup (m : Messenger) (id : string) :
  messages (onMessagesSnapshot m) !! id
  = chat_db m !! id ≫= (fun chatData =>
      if participates (chat_userId m) chatData
      then Some (default [] (c_messages chatData)) else None).
Proof. unfold onMessagesSnapshot. simpl. apply lookup_omap. Qed.

(** The messages listener shows a user only the threads the user takes
    part in: a thread is in the replica exactly when it is stored with the
    user among its participants, and then with its stored messages. *)
Theorem onMessagesSnapshot_own_threads (m : Messenger) (id : string) (msgs : list Message) :
  messages (onMessagesSnapshot m) !! id = Some msgs <->
  exists d ps, chat_db m !! id = Some d /\ c_participants d = Some ps
               /\ In (chat_userId m) ps /\ msgs = default [] (c_messages d).
Proof.
  rewrite onMessagesSnapshot_lookup. unfold participates. split.
  - destruct (chat_db m !! id) as [d|]; simpl; [|done].
    destruct (c_participants d) as [ps|] eqn:Hps; [|done].
    destruct (existsb _ ps) eqn:E; [|done]. intros [= <-].
    apply existsb_exists in E as (u & Hin & Hu%String.eqb_eq).
    exists d, ps. rewrite Hu. by repeat split.
  - intros (d & ps & -> & Hps & Hin & ->). simpl. rewrite Hps.
    rewrite (proj2 (existsb_exists _ ps)); [done|].
    exists (chat_userId m). split; [done | apply String.eqb_refl].
Qed.

Lemma onMessagesSnapshot_own_threads_witness :
  messages (onMessagesSnapshot Sample2.messenger) !! "ride-ride1-rider-rider-1"
  = Some [Sample2.hello]
  /\ messages (onMessagesSnapshot Sample2.messenger) !! "other" <> Some [].
Proof.
  split.
  - apply (onMessagesSnapshot_own_threads Sample2.messenger).
    exists Sample2.thread, ["rider-1"; "driver-1"].
    split; [vm_compute; reflexivity|]. split; [reflexivity|].
    split; [left; reflexivity | reflexivity].
  - intros H.
    apply (onMessagesSnapshot_own_threads Sample2.messenger) in H
      as (d & ps & Hd & Hps & Hin & _).
    assert (Hother : chat_db Sample2.messenger !! "other" = Some Sample2.other_thread)
      by (vm_compute; reflexivity).
    rewrite Hother in Hd. injection Hd as <-. injection Hps as <-.
    destruct Hin as [Hin|[Hin|[]]]; discriminate Hin.
Defined.

(** A sent message is shown once the next snapshot is delivered: after
    [sendMessage] on a thread that does not exist yet, or that lists the
    user as a participant, the refreshed replica of the thread ends with the
    message, after the messages stored before. *)
Theorem sent_message_is_shown (now now' : string) (m : Messenger) (chat : ActiveChat) :
  activeChat m = Some chat ->
  Js.trim (newMessage m) <> "" ->
  chat_userId m = u_id (chat_user m) ->
  (forall d, chat_db m !! ac_id chat = Some d -> participates (chat_userId m) d = true) ->
  let message := mkMessage (u_id (chat_user m)) (u_name (chat_user m)) (newMessage m) now in
  let earlier := match chat_db m !! ac_id chat with
                 | Some d => default [] (c_messages d)
                 | None => []
                 end in
  messages (onMessagesSnapshot (sendMessage now now' m)) !! ac_id chat
  = Some (earlier ++ [message])%list.
Proof.
  intros Hchat Htext Huid Hpart message earlier. subst earlier.
  rewrite onMessagesSnapshot_lookup. unfold sendMessage.
  rewrite Hchat. apply truthy_true in Htext. rewrite Htext. simpl.
  destruct (chat_db m !! ac_id chat) as [d|] eqn:Hd; simpl.
  - rewrite lookup_insert_eq. simpl.
    specialize (Hpart d eq_refl). unfold participates in *. simpl.
    by rewrite Hpart.
  - rewrite lookup_insert_eq. simpl. unfold participates. simpl.
    by rewrite Huid, String.eqb_refl.
Qed.

Lemma sent_message_is_shown_witness :
  messages (onMessagesSnapshot
              (sendMessage "2025-05-31T11:05:00.000Z" "2025-05-31T11:05:00.001Z"
                 Sample2.fresh_messenger)) !! "ride-ride1-rider-rider-1"
  = Some [mkMessage "rider-1" "Riley" "Hi" "2025-05-31T11:05:00.000Z"].
Proof.
  assert (Htext : Js.trim (newMessage Sample2.fresh_messenger) <> "")
    by (vm_compute; discriminate).
  assert (Hnone : chat_db Sample2.fresh_messenger !! ac_id Sample2.chat_with_driver = None)
    by (vm_compute; reflexivity).
  assert (Hpart : forall d, chat_db Sample2.fresh_messenger !! ac_id Sample2.chat_with_driver
                            = Some d ->
                            participates (chat_userId Sample2.fresh_messenger) d = true).
  { intros d Hd. rewrite Hnone in Hd. discriminate Hd. }
  pose proof (sent_message_is_shown "2025-05-31T11:05:00.000Z" "2025-05-31T11:05:00.001Z"
                Sample2.fresh_messenger Sample2.chat_with_driver
                eq_refl Htext eq_refl Hpart) as H.
  cbv zeta in H. rewrite Hnone in H. exact H.
Defined.

Lemma sendMessage_existing (now now' : string) (m : Messenger) (chat : ActiveChat)
  (d : ChatDoc) :
  activeChat m = Some chat ->
  Js.trim (newMessage m) <> "" ->
  chat_db m !! ac_id chat = Some d ->
  let updatedMessages :=
    (default [] (c_messages d)
       ++ [mkMessage (u_id (chat_user m)) (u_name (chat_user m)) (newMessage m) now])%list in
  sendMessage now now' m
  = mkMessenger (<[ac_id chat := set_chat_messages updatedMessages d]> (chat_db m))
                (chat_userId m) (chat_user m)
                (<[ac_id chat := updatedMessages]> (messages m))
                (activeChat m) "" (chat_view m) (chat_modal m).
Proof.
  intros Hchat Htext Hd. unfold sendMessage.
  rewrite Hchat. apply truthy_true in Htext. rewrite Htext. simpl. by rewrite Hd.
Qed.

Lemma startChat_fields (ride : string * Ride) (now : string) (m : Messenger) :
  let chatId := chatIdOf (fst ride) (u_id (chat_user m)) in
  let m1 := startChat ride now m in
  chat_user m1 = chat_user m
  /\ activeChat m1 = Some (mkActiveChat chatId (r_driverName (snd ride))
                             (r_from (snd ride) +:+ " to " +:+ r_to (snd ride))
                             (r_driverId (snd ride)))
  /\ chat_view m1 = "messages"
  /\ chat_db m1 = match chat_db m !! chatId with
                  | Some _ => chat_db m
                  | None => <[chatId := mkChatDoc (Some [u_id (chat_user m); r_driverId (snd ride)])
                                                  (Some []) now]> (chat_db m)
                  end.
Proof. done. Qed.

(** [startChat] never overwrites a thread.  Contacting the driver of a ride,
    sending a message and contacting the same driver about the same ride
    again reopens the same thread with the message in it: the second
    [startChat] writes nothing and selects the same thread identifier. *)
Theorem startChat_reopens_thread (ride : string * Ride) (t1 t2 t3 t4 text : string)
  (m : Messenger) :
  Js.trim text <> "" ->
  let chatId := chatIdOf (fst ride) (u_id (chat_user m)) in
  let m1 := startChat ride t1 m in
  let m2 := sendMessage t2 t3 (setNewMessage text m1) in
  let m3 := startChat ride t4 m2 in
  (ac_id <$> activeChat m1 = Some chatId /\ chat_view m1 = "messages")
  /\ (chat_db m !! chatId = None ->
      chat_db m1 !! chatId
      = Some (mkChatDoc (Some [u_id (chat_user m); r_driverId (snd ride)]) (Some []) t1))
  /\ (forall d, chat_db m !! chatId = Some d -> chat_db m1 = chat_db m)
  /\ chat_db m3 = chat_db m2
  /\ activeChat m3 = activeChat m1
  /\ (exists d earlier,
        chat_db m3 !! chatId = Some d
        /\ c_messages d
           = Some (earlier ++ [mkMessage (u_id (chat_user m)) (u_name (chat_user m)) text t2])%list).
Proof.
  intros Htext chatId m1 m2 m3.
  destruct (startChat_fields ride t1 m) as (Hu1 & Hac1 & Hv1 & Hdb1).
  fold chatId in Hac1, Hdb1. fold m1 in Hu1, Hac1, Hv1, Hdb1.
  assert (Hm1 : exists d, chat_db m1 !! chatId = Some d).
  { rewrite Hdb1. destruct (chat_db m !! chatId) as [d|] eqn:E; [eauto|].
    rewrite lookup_insert_eq. eauto. }
  destruct Hm1 as [d1 Hd1].
  pose proof (sendMessage_existing t2 t3 (setNewMessage text m1) _ d1 Hac1 Htext Hd1) as Hm2.
  cbv zeta in Hm2. cbn [setNewMessage chat_db chat_user chat_userId messages activeChat
                        newMessage chat_view chat_modal ac_id] in Hm2.
  fold m2 in Hm2. rewrite Hu1 in Hm2.
  destruct (startChat_fields ride t4 m2) as (_ & Hac3 & _ & Hdb3).
  fold m3 in Hac3, Hdb3.
  assert (Hu2 : chat_user m2 = chat_user m) by (by rewrite Hm2).
  rewrite Hu2 in Hac3, Hdb3. fold chatId in Hac3, Hdb3.
  assert (Hl2 : chat_db m2 !! chatId
                = Some (set_chat_messages
                          (default [] (c_messages d1)
                             ++ [mkMessage (u_id (chat_user m)) (u_name (chat_user m)) text t2])%list
                          d1)).
  { rewrite Hm2. simpl. apply lookup_insert_eq. }
  rewrite Hl2 in Hdb3.
  split; [by rewrite Hac1|]. split.
  { intros Hnone. rewrite Hdb1, Hnone. apply lookup_insert_eq. }
  split.
  { intros d Hd. by rewrite Hdb1, Hd. }
  split; [exact Hdb3|]. split; [by rewrite Hac3, Hac1|].
  eexists _, _. rewrite Hdb3. split; [exact Hl2 | reflexivity].
Qed.

Lemma startChat_reopens_thread_witness :
  let ride := ("ride1", Sample.posted_ride) in
  let m1 := startChat ride "2025-05-31T11:00:00.000Z" Sample2.fresh_messenger in
  let m2 := sendMessage "2025-05-31T11:01:00.000Z" "2025-05-31T11:01:00.001Z"
              (setNewMessage "Hi Dana" m1) in
  let m3 := startChat ride "2025-05-31T11:02:00.000Z" m2 in
  chat_db m3 = chat_db m2 /\ activeChat m3 = activeChat m1.
Proof.
  assert (Htext : Js.trim "Hi Dana" <> "") by (vm_compute; discriminate).
  destruct (startChat_reopens_thread ("ride1", Sample.posted_ride)
              "2025-05-31T11:00:00.000Z" "2025-05-31T11:01:00.000Z"
              "2025-05-31T11:01:00.001Z" "2025-05-31T11:02:00.000Z" "Hi Dana"
              Sample2.fresh_messenger Htext) as (_ & _ & _ & Hdb & Hac & _).
  split; [exact Hdb | exact Hac].
Defined.

Lemma append_inj_l (p s1 s2 : string) : p +:+ s1 = p +:+ s2 -> s1 = s2.
Proof. induction p as [|c p IH]; simpl; [done|]. intros [= H]. by apply IH. Qed.

Lemma hyphen_separated_inj (r1 r2 u1 u2 : string) :
  hyphen_free r1 = true -> hyphen_free r2 = true ->
  r1 +:+ String "-" u1 = r2 +:+ String "-" u2 -> r1 = r2 /\ u1 = u2.
Proof.
  revert r2. induction r1 as [|c r1 IH]; intros [|c2 r2]; simpl.
  - intros _ _ [= ->]. done.
  - intros _ H2 [= <- _]. done.
  - intros H1 _ [= -> _]. done.
  - intros [_ H1]%andb_true_iff [_ H2]%andb_true_iff [= -> H].
    destruct (IH r2 H1 H2 H) as [-> ->]. done.
Qed.

(** The thread identifier determines the ride and the rider: for ride
    identifiers without [-], as the store generates them, two threads have
    the same identifier only if they are about the same ride and rider. *)
Theorem chatIdOf_inj (rideId1 rideId2 riderId1 riderId2 : string) :
  hyphen_free rideId1 = true -> hyphen_free rideId2 = true ->
  chatIdOf rideId1 riderId1 = chatIdOf rideId2 riderId2 ->
  rideId1 = rideId2 /\ riderId1 = riderId2.
Proof.
  intros H1 H2 H. unfold chatIdOf in H.
  apply (append_inj_l "ride-") in H.
  apply (hyphen_separated_inj rideId1 rideId2 ("rider-" +:+ riderId1) ("rider-" +:+ riderId2))
    in H as [-> H]; [|done|done].
  split; [done|]. by apply (append_inj_l "rider-") in H.
Qed.

Lemma chatIdOf_inj_witness :
  "aB3dE" = "aB3dE" /\ "uid-7" = "uid-7".
Proof.
  apply (chatIdOf_inj "aB3dE" "aB3dE" "uid-7" "uid-7"); reflexivity.
Defined.

(** With [-] in a ride identifier two different pairs can share a thread. *)
Example chatIdOf_collision :
  chatIdOf "a-rider-b" "c" = chatIdOf "a" "b-rider-c".
Proof. reflexivity. Qed.

(** ** Editing the stops of the ride form *)

Lemma map_snd_combine_seq (l : list string) (start : nat) :
  map snd (combine (seq start (List.length l)) l) = l.
Proof.
  revert start. induction l as [|x l IH]; intros start; simpl; [done|]. by rewrite IH.
Qed.

Lemma filter_keeps_later (l : list string) (start k : nat) :
  (k < start)%nat ->
  List.filter (fun ip : nat * string => negb (Nat.eqb (fst ip) k))
    (combine (seq start (List.length l)) l)
  = combine (seq start (List.length l)) l.
Proof.
  intros Hk. apply forallb_filter_id, forallb_forall.
  intros [i p] Hin. apply in_combine_l, in_seq in Hin. simpl.
  apply negb_true_iff, Nat.eqb_neq. lia.
Qed.

Lemma remove_index_spec (l : list string) (start index : nat) :
  map snd (List.filter (fun ip => negb (Nat.eqb (fst ip) (start + index)))
             (combine (seq start (List.length l)) l))
  = (take index l ++ drop (S index) l)%list.
Proof.
  revert start index. induction l as [|x l IH]; intros start index; simpl.
  - by destruct index.
  - destruct index as [|index]; simpl.
    + rewrite Nat.add_0_r, Nat.eqb_refl. simpl.
      rewrite filter_keeps_later by lia. by rewrite map_snd_combine_seq, drop_0.
    + destruct (Nat.eqb start (start + S index)) eqn:E;
        [apply Nat.eqb_eq in E; lia|]. simpl.
      f_equal. rewrite <- (IH (S start) index). f_equal.
      apply filter_ext. intros ip. do 2 f_equal. lia.
Qed.

(** [removeRoutePoint] deletes exactly the stop at the index and leaves the
    form as it is for an index past the last stop; [addRoutePoint] appends
    an empty stop, so removing the stop just added restores the form.  A
    stop that is added and left empty never reaches the stored ride:
    [handlePostRide] behaves the same with and without it. *)
Theorem route_points_editing (rideData : RideData) (index : nat) (now : string) (a : App) :
  rd_route (removeRoutePoint index rideData)
  = (take index (rd_route rideData) ++ drop (S index) (rd_route rideData))%list
  /\ ((List.length (rd_route rideData) <= index)%nat ->
      removeRoutePoint index rideData = rideData)
  /\ removeRoutePoint (List.length (rd_route rideData)) (addRoutePoint rideData) = rideData
  /\ handlePostRide (addRoutePoint rideData) now a = handlePostRide rideData now a.
Proof.
  assert (Hspec : forall i rd, rd_route (removeRoutePoint i rd)
                    = (take i (rd_route rd) ++ drop (S i) (rd_route rd))%list).
  { intros i rd. unfold removeRoutePoint. simpl. apply (remove_index_spec _ 0 i). }
  assert (Hrd : forall i rd route, rd_route (removeRoutePoint i rd) = route ->
                  removeRoutePoint i rd = set_rd_route route rd).
  { intros i rd route <-. done. }
  split; [apply Hspec|]. split; [|split].
  - intros Hle. rewrite (Hrd index rideData (rd_route rideData)); [by destruct rideData|].
    rewrite Hspec, take_ge, drop_ge by lia. apply app_nil_r.
  - rewrite (Hrd _ _ (rd_route rideData)); [by destruct rideData|].
    rewrite Hspec. simpl.
    rewrite take_app_length, drop_ge by (rewrite length_app; simpl; lia).
    apply app_nil_r.
  - unfold handlePostRide, newRide, addRoutePoint. simpl.
    rewrite List.filter_app. simpl. by rewrite app_nil_r.
Qed.

Lemma route_points_editing_witness :
  removeRoutePoint 5 Sample.ride_form = Sample.ride_form.
Proof.
  apply (proj1 (proj2 (route_points_editing Sample.ride_form 5 "" Sample.driver_app))).
  simpl. lia.
Defined.
